(** * android_media_MtpServer.cpp: lifecycle of the MTP server worker

    A shallow embedding of [media/jni/android_media_MtpServer.cpp]: the
    [MtpThread] class (constructor, [threadLoop], [setDone]) and the four
    native methods registered for [android.media.MtpServer]
    ([native_setup], [native_finalize], [native_start], [native_stop]).

    The C++ code mutates a heap object shared between the controller (the
    thread that calls the native methods) and the worker (the thread that
    runs [threadLoop]).  The embedding therefore threads an explicit
    [World] through a small state-and-fault monad: the heap of [MtpThread]
    objects, the Java field [mNativeContext], and the sequence of calls the
    code makes to the outside (log lines, [open], the [MtpServer] methods,
    [close], [Thread::run]). *)

From Stdlib Require Import ZArith Lia.
From stdpp Require Import base list strings.

Open Scope Z_scope.

(** ** Values that cross the boundary *)

(** [MtpDatabase*]: an opaque pointer, handed through unchanged. *)
Definition MtpDatabase_ptr := Z.

(** [jobject]: an opaque reference of the managed runtime. *)
Definition jobject := Z.

(** Flags of [open]; the code uses only [O_RDWR]. *)
Inductive oflag := O_RDWR.

(** Octal literals as the source writes them ([0664], [0775]). *)
Definition octal (digits : list Z) : Z :=
  fold_left (fun acc d => acc * 8 + d) digits 0.

(** An actual argument at the call [new MtpServer(...)] (line 70). *)
Inductive Arg :=
| AFd (fd : Z)
| ADatabase (database : MtpDatabase_ptr)
| AInt (n : Z).

(** The [MtpServer] object as this file sees it: what it was constructed
    with and which storages were added.  Its class is external. *)
Record MtpServer := mkServer {
  srv_args : list Arg;
  srv_storage : list string
}.

(** State of the worker that [Thread::run] launches for an [MtpThread]. *)
Inductive Worker :=
| NotStarted
| Scheduled                                (* about to call [threadLoop] *)
| InRun (fd : Z) (server : MtpServer)      (* blocked in [server->run()] *)
| Exited.

(** [class MtpThread : public Thread] (lines 50-87).  [worker] is the state
    of the [Thread] base class, [deleted] records [delete this]: objects are
    never removed from the heap of the model, so that an object keeps its
    identity after it is freed. *)
Record MtpThread := mkThread {
  mDatabase : MtpDatabase_ptr;
  mStoragePath : string;
  mDone : bool;
  worker : Worker;
  deleted : bool
}.

(** Calls to the outside, in program order. *)
Inductive Event :=
| LOGD (msg : string)
| LOGE (msg : string)
| printf (format : string) (arg : Z)
| sys_open (path : string) (flags : oflag) (ret : Z)
| new_MtpServer (args : list Arg)
| addStorage (path : string)
| server_run
| sys_close (fd : Z)
| delete_MtpServer
| Thread_run_called (this : nat) (name : string).

(** The state shared by controller and workers.  [heap] holds every
    [MtpThread] allocated so far, in allocation order; [mNativeContext] is
    the [int] field of the Java object [thiz]; [effects] is the trace, oldest
    event first. *)
Record World := mkWorld {
  heap : list MtpThread;
  mNativeContext : Z;
  effects : list Event
}.

(** Before any native method ran: nothing allocated, the Java [int] field
    holds its default value. *)
Definition initial : World :=
  {| heap := []; mNativeContext := 0; effects := [] |}.

(** ** Faults and the monad *)

(** Undefined behaviour of the C++ code that the model makes explicit. *)
Inductive fault :=
| NullPointer        (* member access through a null [MtpThread*] *)
| WildPointer        (* the [int] is not the address of any object *)
| UseAfterFree.      (* the object was deleted *)

Inductive result (A : Type) :=
| Ok (a : A)
| Fault (f : fault).
Arguments Ok {A} a.
Arguments Fault {A} f.

Definition M (A : Type) : Type := World -> result (A * World).

Definition ret {A} (a : A) : M A := fun w => Ok (a, w).

Definition bind {A B} (m : M A) (k : A -> M B) : M B :=
  fun w => match m w with
           | Ok (a, w') => k a w'
           | Fault f => Fault f
           end.

Declare Scope cpp_scope.
Delimit Scope cpp_scope with cpp.
Notation "'let*' x := m 'in' k" := (bind m (fun x => k))
  (at level 10, x name, m at level 100, k at level 200, only parsing)
  : cpp_scope.
Notation "m ;; k" := (bind m (fun _ => k))
  (at level 100, k at level 200, only parsing, right associativity)
  : cpp_scope.
Open Scope cpp_scope.

Definition emit (e : Event) : M unit :=
  fun w => Ok (tt, {| heap := heap w;
                      mNativeContext := mNativeContext w;
                      effects := effects w ++ [e] |}).

(** [env->GetIntField(thiz, field_context)] *)
Definition GetIntField : M Z :=
  fun w => Ok (mNativeContext w, w).

(** [env->SetIntField(thiz, field_context, v)] *)
Definition SetIntField (v : Z) : M unit :=
  fun w => Ok (tt, {| heap := heap w;
                      mNativeContext := v;
                      effects := effects w |}).

(** The address of the [i]-th allocated object, as the [int] that
    [(int)thread] stores: never [0]. *)
Definition ptr_of (i : nat) : Z := Z.of_nat i + 1.

(** The cast of the [int] back to a pointer to [MtpThread], followed by a
    member access. *)
Definition deref (p : Z) : M nat :=
  fun w =>
    if p =? 0 then Fault NullPointer
    else if p <? 0 then Fault WildPointer
    else match heap w !! Z.to_nat (p - 1) with
         | None => Fault WildPointer
         | Some t => if deleted t then Fault UseAfterFree
                     else Ok (Z.to_nat (p - 1), w)
         end.

(** Read the object [this]; a deleted object cannot be read. *)
Definition load (this : nat) : M MtpThread :=
  fun w => match heap w !! this with
           | None => Fault WildPointer
           | Some t => if deleted t then Fault UseAfterFree else Ok (t, w)
           end.

(** Write the object [this] back. *)
Definition store (this : nat) (t : MtpThread) : M unit :=
  fun w => Ok (tt, {| heap := <[this := t]> (heap w);
                      mNativeContext := mNativeContext w;
                      effects := effects w |}).

(** [new MtpThread(database, storagePath)]: the constructor (lines 57-60)
    initialises [mDone(false)]; the object gets the next free identity. *)
Definition new_MtpThread (database : MtpDatabase_ptr) (storagePath : string)
  : M nat :=
  fun w => Ok (length (heap w),
               {| heap := heap w ++ [ {| mDatabase := database;
                                         mStoragePath := storagePath;
                                         mDone := false;
                                         worker := NotStarted;
                                         deleted := false |} ];
                  mNativeContext := mNativeContext w;
                  effects := effects w |}).

Definition set_mDone (b : bool) (t : MtpThread) : MtpThread :=
  {| mDatabase := mDatabase t; mStoragePath := mStoragePath t;
     mDone := b; worker := worker t; deleted := deleted t |}.

Definition set_worker (s : Worker) (t : MtpThread) : MtpThread :=
  {| mDatabase := mDatabase t; mStoragePath := mStoragePath t;
     mDone := mDone t; worker := s; deleted := deleted t |}.

Definition set_deleted (t : MtpThread) : MtpThread :=
  {| mDatabase := mDatabase t; mStoragePath := mStoragePath t;
     mDone := mDone t; worker := worker t; deleted := true |}.

(** [delete this;] *)
Definition delete_this (this : nat) : M unit :=
  let* t := load this in store this (set_deleted t).

(** The newline that ends the log lines of the source. *)
Definition nl : string := String (Ascii.ascii_of_nat 10) EmptyString.

(** ** A sample session

    The worlds of one session, written out: [setup], [start], a first
    iteration that enters [run] on descriptor 3, [stop] during the run, and
    the return of [run].  The lemmas at the end of the file replay the
    program on them. *)

Module Session.

(** The platform of the session: the value of [AID_SDCARD_RW] and a
    database lookup. *)
Definition gid : Z := 1015.
Definition database_of (javaDatabase : jobject) : MtpDatabase_ptr :=
  4096 + javaDatabase.

(** The handle as [setup] makes it for the database 7 and the path
    [/sdcard], and the server the worker constructs for it. *)
Definition handle : MtpThread :=
  {| mDatabase := 4103; mStoragePath := "/sdcard"; mDone := false;
     worker := NotStarted; deleted := false |}.

Definition the_server : MtpServer :=
  {| srv_args := [AFd 3; ADatabase 4103; AInt 1015; AInt 436; AInt 509];
     srv_storage := ["/sdcard"] |}.

Definition created : World :=
  {| heap := [handle];
     mNativeContext := 1;
     effects := [LOGD ("setup" +:+ nl)] |}.

Definition started : World :=
  {| heap := [set_worker Scheduled handle];
     mNativeContext := 1;
     effects := effects created ++
                [LOGD ("start" +:+ nl); Thread_run_called 0 "MtpThread"] |}.

(** Inside [threadLoop], at the call of [server->run()]. *)
Definition entered : World :=
  {| heap := heap started;
     mNativeContext := 1;
     effects := effects started ++
                [sys_open "/dev/mtp_usb" O_RDWR 3;
                 printf ("open returned %d" +:+ nl) 3;
                 new_MtpServer (srv_args the_server);
                 addStorage "/sdcard";
                 LOGD "MtpThread server->run";
                 server_run] |}.

(** The same, with the worker recorded as blocked in [run]. *)
Definition running : World :=
  {| heap := [set_worker (InRun 3 the_server) handle];
     mNativeContext := 1;
     effects := effects entered |}.

Definition stopping : World :=
  {| heap := [set_mDone true (set_worker (InRun 3 the_server) handle)];
     mNativeContext := 0;
     effects := effects running ++ [LOGD ("stop" +:+ nl)] |}.

Definition stopped : World :=
  {| heap := [set_worker Exited
                (set_deleted
                   (set_mDone true
                      (set_worker (InRun 3 the_server) handle)))];
     mNativeContext := 0;
     effects := effects stopping ++
                [sys_close 3; delete_MtpServer;
                 LOGD "threadLoop returning false"] |}.

(** Another [setup] after the session ended. *)
Definition set_up_again : World :=
  {| heap := heap stopped ++
             [ {| mDatabase := 4104; mStoragePath := "/mnt/sdcard2";
                  mDone := false; worker := NotStarted;
                  deleted := false |} ];
     mNativeContext := 2;
     effects := effects stopped ++ [LOGD ("setup" +:+ nl)] |}.

(** [stop] seen from inside [threadLoop], while it waits in [run]. *)
Definition asked_to_stop : World :=
  {| heap := [set_mDone true (set_worker Scheduled handle)];
     mNativeContext := 0;
     effects := effects entered ++ [LOGD ("stop" +:+ nl)] |}.

(** The first iteration with the device absent instead. *)
Definition gave_up : World :=
  {| heap := [set_worker Exited handle];
     mNativeContext := 1;
     effects := effects started ++
                [sys_open "/dev/mtp_usb" O_RDWR (-1);
                 printf ("open returned %d" +:+ nl) (-1);
                 LOGE ("could not open MTP driver" +:+ nl)] |}.

End Session.

(** ** A second sample: two handles

    [setup] twice, then [start]: the slot refers to the second handle and
    nothing refers to the first. *)

Module Orphan.

Definition first : MtpThread :=
  {| mDatabase := 4103; mStoragePath := "/sdcard"; mDone := false;
     worker := NotStarted; deleted := false |}.

Definition second : MtpThread :=
  {| mDatabase := 4104; mStoragePath := "/mnt/sdcard2"; mDone := false;
     worker := NotStarted; deleted := false |}.

Definition set_up_twice : World :=
  {| heap := [first; second];
     mNativeContext := 2;
     effects := [LOGD ("setup" +:+ nl); LOGD ("setup" +:+ nl)] |}.

(** After [start], a [stop], and a third [setup]. *)
Definition later : World :=
  {| heap := [first; set_mDone true (set_worker Scheduled second);
              {| mDatabase := 4105; mStoragePath := "/sdcard"; mDone := false;
                 worker := NotStarted; deleted := false |}];
     mNativeContext := 3;
     effects := effects set_up_twice ++
                [LOGD ("start" +:+ nl); Thread_run_called 1 "MtpThread";
                 LOGD ("stop" +:+ nl); LOGD ("setup" +:+ nl)] |}.

(** [setup], then [stop] with no [start] in between, then a new
    [setup]. *)
Definition stopped_early : World :=
  {| heap := [set_mDone true first];
     mNativeContext := 0;
     effects := [LOGD ("setup" +:+ nl); LOGD ("stop" +:+ nl)] |}.

Definition set_up_after : World :=
  {| heap := [set_mDone true first; second];
     mNativeContext := 2;
     effects := effects stopped_early ++ [LOGD ("setup" +:+ nl)] |}.

End Orphan.

(** ** Registration of the native methods

    [register_android_media_MtpServer] (lines 141-160) with the table
    [gMethods] (lines 131-137).  The runtime is a record of the three calls
    the function makes; [NULL] is [0]. *)

Module Registration.

(** The functions the table points to. *)
Inductive native_fn :=
| fn_setup          (* android_media_MtpServer_setup *)
| fn_finalize       (* android_media_MtpServer_finalize *)
| fn_start          (* android_media_MtpServer_start *)
| fn_stop.          (* android_media_MtpServer_stop *)

Record JNINativeMethod := mkMethod {
  name : string;
  signature : string;
  fnPtr : native_fn
}.

Definition gMethods : list JNINativeMethod :=
  [ {| name := "native_setup";
       signature := "(Landroid/media/MtpDatabase;Ljava/lang/String;)V";
       fnPtr := fn_setup |};
    {| name := "native_finalize"; signature := "()V";
       fnPtr := fn_finalize |};
    {| name := "native_start"; signature := "()V"; fnPtr := fn_start |};
    {| name := "native_stop"; signature := "()V"; fnPtr := fn_stop |} ].

(** [NELEM(x)]: the number of elements of the array. *)
Definition NELEM {A} (x : list A) : Z := Z.of_nat (length x).

(** What the function asks of the runtime: [env->FindClass],
    [env->GetFieldID] and [AndroidRuntime::registerNativeMethods]. *)
Record JNIEnv := mkEnv {
  FindClass : string -> Z;
  GetFieldID : Z -> string -> string -> Z;
  registerNativeMethods : string -> list JNINativeMethod -> Z -> Z
}.

(** One call of [registerNativeMethods], with its arguments. *)
Record Registered := mkRegistered {
  reg_class : string;
  reg_methods : list JNINativeMethod;
  reg_count : Z
}.

(** The file-level state: the static [field_context], the log, and the
    registrations made so far. *)
Record Statics := mkStatics {
  field_context : Z;
  log : list Event;
  registered : list Registered
}.

Definition logged (e : Event) (s : Statics) : Statics :=
  {| field_context := field_context s;
     log := log s ++ [e];
     registered := registered s |}.

Definition register_android_media_MtpServer (env : JNIEnv) (s : Statics)
  : Z * Statics :=
  let s := logged (LOGD ("register_android_media_MtpServer" +:+ nl)) s in
  let clazz := FindClass env "android/media/MtpServer" in
  if clazz =? 0 then
    (-1, logged (LOGE "Can't find android/media/MtpServer") s)
  else
    let s := {| field_context := GetFieldID env clazz "mNativeContext" "I";
                log := log s;
                registered := registered s |} in
    if field_context s =? 0 then
      (-1, logged (LOGE "Can't find MtpServer.mNativeContext") s)
    else
      (registerNativeMethods env "android/media/MtpServer" gMethods
                             (NELEM gMethods),
       {| field_context := field_context s;
          log := log s;
          registered := registered s ++
                        [ {| reg_class := "android/media/MtpServer";
                             reg_methods := gMethods;
                             reg_count := NELEM gMethods |} ] |}).

(** A runtime that knows the class (as 77) and its field (as 12) and
    registers whatever it is given, and one that does not know the
    field. *)
Definition good_env : JNIEnv :=
  {| FindClass := fun _ => 77;
     GetFieldID := fun _ _ _ => 12;
     registerNativeMethods := fun _ _ _ => 0 |}.

Definition env_without_field : JNIEnv :=
  {| FindClass := fun _ => 77;
     GetFieldID := fun _ _ _ => 0;
     registerNativeMethods := fun _ _ _ => 0 |}.

Definition fresh : Statics :=
  {| field_context := 0; log := []; registered := [] |}.

End Registration.

(** ** The program *)

Section MtpServerJNI.

(** [AID_SDCARD_RW] comes from [private/android_filesystem_config.h] and
    [getMtpDatabase] from [android_media_MtpDatabase.cpp]; this file only
    uses them. *)
Variable AID_SDCARD_RW : Z.
Variable getMtpDatabase : jobject -> MtpDatabase_ptr.

(** *** [MtpThread::threadLoop]

    [server->run()] blocks the worker for a whole session, and the
    controller may call the native methods meanwhile.  The body is
    therefore given in two parts, before and after that call; [fd] is what
    [open] returned. *)

(** Lines 63-75: from [open] to the call of [server->run()].  [None] is
    the early [return false] of line 67, [Some server] means that the
    worker is now inside [run]. *)
Definition threadLoop_to_run (this : nat) (fd : Z) : M (option MtpServer) :=
  emit (sys_open "/dev/mtp_usb" O_RDWR fd) ;;
  emit (printf ("open returned %d" +:+ nl) fd) ;;
  if fd <? 0 then
    emit (LOGE ("could not open MTP driver" +:+ nl)) ;;
    ret None
  else
    let* self := load this in
    let args := [AFd fd; ADatabase (mDatabase self); AInt AID_SDCARD_RW;
                 AInt (octal [0; 6; 6; 4]); AInt (octal [0; 7; 7; 5])] in
    emit (new_MtpServer args) ;;
    emit (addStorage (mStoragePath self)) ;;
    emit (LOGD "MtpThread server->run") ;;
    emit server_run ;;
    ret (Some {| srv_args := args; srv_storage := [mStoragePath self] |}).

(** Lines 76-83: from the return of [server->run()] to the end; the
    result is the [bool] that [threadLoop] returns. *)
Definition threadLoop_from_run (this : nat) (fd : Z) (server : MtpServer)
  : M bool :=
  emit (sys_close fd) ;;
  emit delete_MtpServer ;;
  let* self := load this in
  let done := mDone self in
  (if done then delete_this this else ret tt) ;;
  emit (LOGD ("threadLoop returning " +:+
              (if done then "false" else "true"))) ;;
  ret (negb done).

(** The whole body; [meanwhile] is what the other threads do to the world
    while this one is blocked in [server->run()]. *)
Definition threadLoop (this : nat) (fd : Z) (meanwhile : M unit) : M bool :=
  let* r := threadLoop_to_run this fd in
  match r with
  | None => ret false
  | Some server => meanwhile ;; threadLoop_from_run this fd server
  end.

(** [void setDone() { mDone = true; }] *)
Definition setDone (this : nat) : M unit :=
  let* self := load this in store this (set_mDone true self).

(** Modelled from the spec: [Thread::run] of the base class
    ([utils/threads.h]) is not part of this file.  The spec has [start]
    launch exactly one worker for a handle that is not already started, and
    at most one live worker per handle; the loop body then runs on that
    worker. *)
Definition Thread_run (this : nat) (name : string) : M unit :=
  emit (Thread_run_called this name) ;;
  let* self := load this in
  match worker self with
  | NotStarted => store this (set_worker Scheduled self)
  | _ => ret tt
  end.

(** Modelled from the spec: the loop of the base class around
    [threadLoop] is not part of this file.  The spec has a return of
    [false] end the worker for good (do not reschedule) and a return of
    [true] make the body eligible to run again.  The bookkeeping does not
    read the members of the object, which may be deleted by now. *)
Definition after_threadLoop (this : nat) (again : bool) : M unit :=
  fun w => Ok (tt, {| heap := alter (set_worker (if again then Scheduled
                                                 else Exited)) this (heap w);
                      mNativeContext := mNativeContext w;
                      effects := effects w |}).

(** The worker is blocked in [server->run()]. *)
Definition enter_run (this : nat) (fd : Z) (server : MtpServer) : M unit :=
  fun w => Ok (tt, {| heap := alter (set_worker (InRun fd server)) this
                                    (heap w);
                      mNativeContext := mNativeContext w;
                      effects := effects w |}).

(** *** The native methods *)

Definition android_media_MtpServer_setup
    (javaDatabase : jobject) (storagePath : string) : M unit :=
  emit (LOGD ("setup" +:+ nl)) ;;
  let database := getMtpDatabase javaDatabase in
  let storagePathStr := storagePath in
  let* thread := new_MtpThread database storagePathStr in
  SetIntField (ptr_of thread).

Definition android_media_MtpServer_finalize : M unit :=
  emit (LOGD ("finalize" +:+ nl)).

Definition android_media_MtpServer_start : M unit :=
  emit (LOGD ("start" +:+ nl)) ;;
  let* thread := GetIntField in
  let* this := deref thread in
  Thread_run this "MtpThread".

Definition android_media_MtpServer_stop : M unit :=
  emit (LOGD ("stop" +:+ nl)) ;;
  let* thread := GetIntField in
  if negb (thread =? 0) then
    (let* this := deref thread in setDone this) ;;
    SetIntField 0
  else ret tt.

(** *** Controller and workers, interleaved *)

(** What can happen next: the controller calls a native method, or the
    worker of some object runs one of the two parts of [threadLoop]. *)
Inductive Action :=
| native_setup (javaDatabase : jobject) (storagePath : string)
| native_finalize
| native_start
| native_stop
| worker_opens (this : nat) (fd : Z)
| worker_returns (this : nat).

(** The worker of [this] runs lines 63-75. *)
Definition worker_begin (this : nat) (fd : Z) : M unit :=
  let* r := threadLoop_to_run this fd in
  match r with
  | None => after_threadLoop this false
  | Some server => enter_run this fd server
  end.

(** [server->run()] returns and the worker of [this] runs lines 76-83. *)
Definition worker_end (this : nat) (fd : Z) (server : MtpServer) : M unit :=
  let* again := threadLoop_from_run this fd server in
  after_threadLoop this again.

Inductive step : World -> Action -> World -> Prop :=
| step_setup w javaDatabase storagePath w' :
    android_media_MtpServer_setup javaDatabase storagePath w = Ok (tt, w') ->
    step w (native_setup javaDatabase storagePath) w'
| step_finalize w w' :
    android_media_MtpServer_finalize w = Ok (tt, w') ->
    step w native_finalize w'
| step_start w w' :
    android_media_MtpServer_start w = Ok (tt, w') ->
    step w native_start w'
| step_stop w w' :
    android_media_MtpServer_stop w = Ok (tt, w') ->
    step w native_stop w'
| step_opens w this fd self w' :
    heap w !! this = Some self ->
    worker self = Scheduled ->
    worker_begin this fd w = Ok (tt, w') ->
    step w (worker_opens this fd) w'
| step_returns w this fd server self w' :
    heap w !! this = Some self ->
    worker self = InRun fd server ->
    worker_end this fd server w = Ok (tt, w') ->
    step w (worker_returns this) w'.

(** Histories, newest action first. *)
Inductive steps : World -> list Action -> World -> Prop :=
| steps_nil w : steps w [] w
| steps_cons w h w' a w'' :
    steps w h w' -> step w' a w'' -> steps w (a :: h) w''.

(** Whether the last of the native methods that write the slot was
    [native_setup]. *)
Fixpoint armed (h : list Action) : bool :=
  match h with
  | [] => false
  | native_setup _ _ :: _ => true
  | native_stop :: _ => false
  | _ :: h' => armed h'
  end.

(** The events a computation added to the trace. *)
Definition emitted (w w' : World) : list Event :=
  drop (length (effects w)) (effects w').

Definition is_new_MtpServer (e : Event) : bool :=
  match e with new_MtpServer _ => true | _ => false end.

Definition is_sys_open (e : Event) : bool :=
  match e with sys_open _ _ _ => true | _ => false end.

Definition is_Thread_run (e : Event) : bool :=
  match e with Thread_run_called _ _ => true | _ => false end.

(** ** Unfolding the monad *)

Ltac cpp_unfold :=
  unfold bind, ret, emit, GetIntField, SetIntField, load, store,
    new_MtpThread, delete_this in *.

Ltac cpp_simpl := cpp_unfold; cbn [heap mNativeContext effects fst snd] in *.

(** ** Names for what the functions produce *)

Definition stop_log : Event := LOGD ("stop" +:+ nl).

Definition setup_log : Event := LOGD ("setup" +:+ nl).

Definition start_log : Event := LOGD ("start" +:+ nl).

(** The heap after [Thread::run] on the object [self]. *)
Definition launched (this : nat) (self : MtpThread) (h : list MtpThread)
  : list MtpThread :=
  match worker self with
  | NotStarted => <[this := set_worker Scheduled self]> h
  | _ => h
  end.

(** The three calls of a failed iteration. *)
Definition open_failed_events (fd : Z) : list Event :=
  [sys_open "/dev/mtp_usb" O_RDWR fd;
   printf ("open returned %d" +:+ nl) fd;
   LOGE ("could not open MTP driver" +:+ nl)].

(** The arguments of [new MtpServer(...)], with the octal literals
    evaluated. *)
Definition server_args (fd : Z) (self : MtpThread) : list Arg :=
  [AFd fd; ADatabase (mDatabase self); AInt AID_SDCARD_RW;
   AInt 436; AInt 509].

Definition server_of (fd : Z) (self : MtpThread) : MtpServer :=
  {| srv_args := server_args fd self; srv_storage := [mStoragePath self] |}.

(** The calls from [open] to [server->run()]. *)
Definition session_start_events (fd : Z) (self : MtpThread) : list Event :=
  [sys_open "/dev/mtp_usb" O_RDWR fd;
   printf ("open returned %d" +:+ nl) fd;
   new_MtpServer (server_args fd self);
   addStorage (mStoragePath self);
   LOGD "MtpThread server->run";
   server_run].

(** The calls after [server->run()] returned. *)
Definition session_end_events (fd : Z) (done : bool) : list Event :=
  [sys_close fd; delete_MtpServer;
   LOGD ("threadLoop returning " +:+ (if done then "false" else "true"))].

(** The heap after the check of [mDone] (lines 79-81). *)
Definition after_check (this : nat) (self : MtpThread) (h : list MtpThread)
  : list MtpThread :=
  if mDone self then <[this := set_deleted self]> h else h.

(** How the object [i], equal to [t] before the action [a] taken in the
    world [w], can look afterwards: untouched; with another worker state
    (a live one only if the object is not deleted); with [mDone] set, by
    [native_stop] through the slot; or deleted, by its own worker after it
    read [mDone] as [true], that worker having exited. *)
Inductive change (w : World) (a : Action) (i : nat) (t : MtpThread)
  : MtpThread -> Prop :=
| change_none : change w a i t t
| change_worker s :
    s = Exited \/ deleted t = false ->
    change w a i t (set_worker s t)
| change_done :
    a = native_stop -> mNativeContext w = ptr_of i -> deleted t = false ->
    change w a i t (set_mDone true t)
| change_deleted :
    a = worker_returns i -> mDone t = true -> deleted t = false ->
    change w a i t (set_worker Exited (set_deleted t)).

(** No worker that is scheduled or inside [run] has a deleted object. *)
Definition workers_alive (w : World) : Prop :=
  forall i t, heap w !! i = Some t ->
              worker t <> NotStarted -> worker t <> Exited ->
              deleted t = false.

(** The slot refers to a live object that nobody asked to stop. *)
Definition slot_armed (w : World) : Prop :=
  exists this self,
    mNativeContext w = ptr_of this /\ heap w !! this = Some self /\
    deleted self = false /\ mDone self = false.

(** ** Measures of a world and of a history *)

(** How many elements of a list satisfy [p]. *)
Fixpoint count {A} (p : A -> bool) (l : list A) : nat :=
  match l with
  | [] => 0%nat
  | x :: l' => ((if p x then 1 else 0) + count p l')%nat
  end.

(** The worker of the object is blocked in [server->run()]. *)
Definition in_run (t : MtpThread) : bool :=
  match worker t with InRun _ _ => true | _ => false end.

(** The descriptor an event obtains: what [open] returned, unless it
    failed. *)
Definition opened_by (e : Event) : list Z :=
  match e with
  | sys_open _ _ fd => if 0 <=? fd then [fd] else []
  | _ => []
  end.

(** The descriptor an event gives back. *)
Definition closed_by (e : Event) : list Z :=
  match e with sys_close fd => [fd] | _ => [] end.

(** The descriptor the worker of an object holds while it is in [run]. *)
Definition held_by (t : MtpThread) : list Z :=
  match worker t with InRun fd _ => [fd] | _ => [] end.

(** All descriptors obtained and given back along a trace, and all those
    held in a heap, with repetitions. *)
Definition opened (es : list Event) : list Z := flat_map opened_by es.
Definition closed (es : list Event) : list Z := flat_map closed_by es.
Definition held (h : list MtpThread) : list Z := flat_map held_by h.

(** Take one occurrence of [fd] out of the open descriptors, if there is
    one. *)
Fixpoint take_out (fd : Z) (open : list Z) : option (list Z) :=
  match open with
  | [] => None
  | x :: open' =>
      if x =? fd then Some open'
      else match take_out fd open' with
           | Some rest => Some (x :: rest)
           | None => None
           end
  end.

(** Replay a trace from the descriptors open at its start.  A successful
    [open] adds its descriptor; a [close] must find its descriptor open and
    takes it out; a server must be constructed on a descriptor that is
    open.  The result is the descriptors open at the end, or [None] if
    some call was made on a descriptor that was not open. *)
Fixpoint replay (open : list Z) (es : list Event) : option (list Z) :=
  match es with
  | [] => Some open
  | sys_open _ _ fd :: es' =>
      replay (if 0 <=? fd then fd :: open else open) es'
  | sys_close fd :: es' =>
      match take_out fd open with
      | Some open' => replay open' es'
      | None => None
      end
  | new_MtpServer (AFd fd :: _) :: es' =>
      if existsb (Z.eqb fd) open then replay open es' else None
  | new_MtpServer _ :: _ => None
  | _ :: es' => replay open es'
  end.

Definition is_delete_MtpServer (e : Event) : bool :=
  match e with delete_MtpServer => true | _ => false end.

(** The arguments of the [setup] calls of a history, oldest first. *)
Fixpoint setups (h : list Action) : list (jobject * string) :=
  match h with
  | [] => []
  | native_setup javaDatabase storagePath :: h' =>
      setups h' ++ [(javaDatabase, storagePath)]
  | _ :: h' => setups h'
  end.

(** What [setup] captures in a handle. *)
Definition config (t : MtpThread) : MtpDatabase_ptr * string :=
  (mDatabase t, mStoragePath t).

(** A server is constructed as line 70 has it, for a handle of the heap:
    with the database pointer of that handle. *)
Definition constructed_ok (w : World) (e : Event) : Prop :=
  match e with
  | new_MtpServer args =>
      exists i t fd,
        heap w !! i = Some t /\ 0 <= fd /\
        args = [AFd fd; ADatabase (mDatabase t); AInt AID_SDCARD_RW;
                AInt 436; AInt 509]
  | _ => True
  end.

(** A worker inside [run] holds a descriptor that [open] returned and the
    server constructed from its own handle. *)
Definition runs_ok (w : World) : Prop :=
  forall i t fd server,
    heap w !! i = Some t -> worker t = InRun fd server ->
    0 <= fd /\ server = server_of fd t.

(** The descriptors and servers not yet given back are those of the
    workers inside [run]. *)
Definition balanced (w : World) : Prop :=
  Permutation (opened (effects w))
              (closed (effects w) ++ held (heap w)) /\
  count is_new_MtpServer (effects w) =
    (count is_delete_MtpServer (effects w) + count in_run (heap w))%nat.

(** The trace replays, and the descriptors it leaves open are those held
    by the workers inside [run]. *)
Definition replays (w : World) : Prop :=
  exists open,
    replay [] (effects w) = Some open /\
    Permutation open (held (heap w)).

(** What a step does to the heap, as far as [held] and [in_run] see it,
    and what it appends to the trace. *)
Inductive session_change (w w' : World) : Prop :=
| session_same :
    held (heap w') = held (heap w) ->
    count in_run (heap w') = count in_run (heap w) ->
    opened (effects w') = opened (effects w) ->
    closed (effects w') = closed (effects w) ->
    count is_new_MtpServer (effects w') = count is_new_MtpServer (effects w) ->
    count is_delete_MtpServer (effects w')
      = count is_delete_MtpServer (effects w) ->
    session_change w w'
| session_begun fd :
    Permutation (held (heap w')) (fd :: held (heap w)) ->
    count in_run (heap w') = S (count in_run (heap w)) ->
    opened (effects w') = opened (effects w) ++ [fd] ->
    closed (effects w') = closed (effects w) ->
    count is_new_MtpServer (effects w')
      = S (count is_new_MtpServer (effects w)) ->
    count is_delete_MtpServer (effects w')
      = count is_delete_MtpServer (effects w) ->
    session_change w w'
| session_ended fd :
    Permutation (held (heap w)) (fd :: held (heap w')) ->
    S (count in_run (heap w')) = count in_run (heap w) ->
    opened (effects w') = opened (effects w) ->
    closed (effects w') = closed (effects w) ++ [fd] ->
    count is_new_MtpServer (effects w') = count is_new_MtpServer (effects w) ->
    count is_delete_MtpServer (effects w')
      = S (count is_delete_MtpServer (effects w)) ->
    session_change w w'.

(** ** Basic facts *)

Lemma ptr_of_nonzero (i : nat) : ptr_of i <> 0.
Proof. unfold ptr_of. lia. Qed.

Lemma ptr_of_index (i : nat) : Z.to_nat (ptr_of i - 1) = i.
Proof. unfold ptr_of. lia. Qed.

(** A reference to a live object can be followed. *)
Lemma deref_live (w : World) (this : nat) (self : MtpThread) :
  heap w !! this = Some self -> deleted self = false ->
  deref (ptr_of this) w = Ok (this, w).
Proof.
  intros Hget Hlive. unfold deref.
  destruct (Z.eqb_spec (ptr_of this) 0) as [E|_].
  { now apply ptr_of_nonzero in E. }
  destruct (Z.ltb_spec (ptr_of this) 0) as [E|_].
  { unfold ptr_of in E. lia. }
  rewrite ptr_of_index, Hget, Hlive. reflexivity.
Qed.

(** Whatever [deref] follows successfully is a live object, and the
    world is only read. *)
Lemma deref_Ok (p : Z) (w w' : World) (this : nat) :
  deref p w = Ok (this, w') ->
  w' = w /\ p = ptr_of this /\
  exists self, heap w !! this = Some self /\ deleted self = false.
Proof.
  unfold deref.
  destruct (Z.eqb_spec p 0) as [|Hnz]; [discriminate|].
  destruct (Z.ltb_spec p 0) as [|Hpos]; [discriminate|].
  destruct (heap w !! Z.to_nat (p - 1)) as [self|] eqn:Hget; [|discriminate].
  destruct (deleted self) eqn:Hdel; [discriminate|].
  intros [= <- <-]. repeat split.
  - unfold ptr_of. lia.
  - exists self. split; assumption.
Qed.

(** The events added by a computation that appended [l] to the trace. *)
Lemma emitted_app (w w' : World) (l : list Event) :
  effects w' = effects w ++ l -> emitted w w' = l.
Proof. intros E. unfold emitted. rewrite E. apply drop_app_length. Qed.

(** ** What each function does *)

Lemma stop_null (w : World) :
  mNativeContext w = 0 ->
  android_media_MtpServer_stop w =
    Ok (tt, {| heap := heap w; mNativeContext := mNativeContext w;
               effects := effects w ++ [stop_log] |}).
Proof.
  intros Hnull. unfold android_media_MtpServer_stop. cpp_simpl.
  rewrite Hnull. reflexivity.
Qed.

Lemma stop_live (w : World) (this : nat) (self : MtpThread) :
  mNativeContext w = ptr_of this ->
  heap w !! this = Some self -> deleted self = false ->
  android_media_MtpServer_stop w =
    Ok (tt, {| heap := <[this := set_mDone true self]> (heap w);
               mNativeContext := 0;
               effects := effects w ++ [stop_log] |}).
Proof.
  intros Hslot Hget Hlive.
  unfold android_media_MtpServer_stop, setDone. cpp_simpl.
  rewrite Hslot.
  destruct (Z.eqb_spec (ptr_of this) 0) as [E|_].
  { now apply ptr_of_nonzero in E. }
  cbn [negb].
  erewrite deref_live by (cbn [heap]; eassumption).
  cbn [heap]. rewrite Hget, Hlive. reflexivity.
Qed.

(** Every successful [stop] is one of the two cases above. *)
Lemma stop_Ok (w w' : World) :
  android_media_MtpServer_stop w = Ok (tt, w') ->
  (mNativeContext w = 0 /\
   w' = {| heap := heap w; mNativeContext := mNativeContext w;
           effects := effects w ++ [stop_log] |})
  \/
  (exists this self,
     mNativeContext w = ptr_of this /\
     heap w !! this = Some self /\ deleted self = false /\
     w' = {| heap := <[this := set_mDone true self]> (heap w);
             mNativeContext := 0;
             effects := effects w ++ [stop_log] |}).
Proof.
  intros Hrun.
  destruct (Z.eq_dec (mNativeContext w) 0) as [Hnull|Hnz].
  - left. split; [assumption|].
    rewrite (stop_null w Hnull) in Hrun. congruence.
  - right.
    assert (Hd : exists this w1, deref (mNativeContext w)
               {| heap := heap w; mNativeContext := mNativeContext w;
                  effects := effects w ++ [stop_log] |} = Ok (this, w1)).
    { revert Hrun. unfold android_media_MtpServer_stop, setDone. cpp_simpl.
      destruct (Z.eqb_spec (mNativeContext w) 0) as [|_]; [contradiction|].
      cbn [negb]. fold stop_log.
      destruct (deref _ _) as [[this w1]|]; [eauto | discriminate]. }
    destruct Hd as (this & w1 & Hd).
    destruct (deref_Ok _ _ _ _ Hd) as (_ & Hp & self & Hget & Hlive).
    cbn [heap] in Hget.
    exists this, self. repeat split; try assumption.
    rewrite (stop_live w this self Hp Hget Hlive) in Hrun. congruence.
Qed.

Lemma setup_Ok (javaDatabase : jobject) (storagePath : string) (w : World) :
  android_media_MtpServer_setup javaDatabase storagePath w =
    Ok (tt, {| heap := heap w ++
                 [ {| mDatabase := getMtpDatabase javaDatabase;
                      mStoragePath := storagePath;
                      mDone := false;
                      worker := NotStarted;
                      deleted := false |} ];
               mNativeContext := ptr_of (length (heap w));
               effects := effects w ++ [setup_log] |}).
Proof. reflexivity. Qed.

Lemma start_null (w : World) :
  mNativeContext w = 0 ->
  android_media_MtpServer_start w = Fault NullPointer.
Proof.
  intros Hnull. unfold android_media_MtpServer_start. cpp_simpl.
  rewrite Hnull. reflexivity.
Qed.

Lemma start_live (w : World) (this : nat) (self : MtpThread) :
  mNativeContext w = ptr_of this ->
  heap w !! this = Some self -> deleted self = false ->
  android_media_MtpServer_start w =
    Ok (tt, {| heap := launched this self (heap w);
               mNativeContext := mNativeContext w;
               effects := effects w ++
                          [start_log; Thread_run_called this "MtpThread"] |}).
Proof.
  intros Hslot Hget Hlive.
  unfold android_media_MtpServer_start, Thread_run, launched. cpp_simpl.
  rewrite Hslot.
  erewrite deref_live by (cbn [heap]; eassumption).
  cbn [heap]. rewrite Hget, Hlive, <- Hslot.
  destruct (worker self); cbn [heap mNativeContext effects];
    rewrite <- app_assoc; reflexivity.
Qed.

Lemma start_Ok (w w' : World) :
  android_media_MtpServer_start w = Ok (tt, w') ->
  exists this self,
    mNativeContext w = ptr_of this /\
    heap w !! this = Some self /\ deleted self = false /\
    w' = {| heap := launched this self (heap w);
            mNativeContext := mNativeContext w;
            effects := effects w ++
                       [start_log; Thread_run_called this "MtpThread"] |}.
Proof.
  intros Hrun.
  assert (Hd : exists this w1, deref (mNativeContext w)
             {| heap := heap w; mNativeContext := mNativeContext w;
                effects := effects w ++ [start_log] |} = Ok (this, w1)).
  { revert Hrun. unfold android_media_MtpServer_start. cpp_simpl.
    fold start_log.
    destruct (deref _ _) as [[this w1]|]; [eauto | discriminate]. }
  destruct Hd as (this & w1 & Hd).
  destruct (deref_Ok _ _ _ _ Hd) as (_ & Hp & self & Hget & Hlive).
  cbn [heap] in Hget.
  exists this, self. repeat split; try assumption.
  rewrite (start_live w this self Hp Hget Hlive) in Hrun. congruence.
Qed.

Lemma to_run_fail (this : nat) (fd : Z) (w : World) :
  fd < 0 ->
  threadLoop_to_run this fd w =
    Ok (None, {| heap := heap w; mNativeContext := mNativeContext w;
                 effects := effects w ++ open_failed_events fd |}).
Proof.
  intros Hneg. unfold threadLoop_to_run. cpp_simpl.
  destruct (Z.ltb_spec fd 0) as [_|]; [|lia].
  cbn [heap mNativeContext effects]. rewrite <- !app_assoc. reflexivity.
Qed.

Lemma to_run_live (this : nat) (fd : Z) (w : World) (self : MtpThread) :
  0 <= fd -> heap w !! this = Some self -> deleted self = false ->
  threadLoop_to_run this fd w =
    Ok (Some (server_of fd self),
        {| heap := heap w; mNativeContext := mNativeContext w;
           effects := effects w ++ session_start_events fd self |}).
Proof.
  intros Hfd Hget Hlive. unfold threadLoop_to_run. cpp_simpl.
  destruct (Z.ltb_spec fd 0) as [|_]; [lia|].
  cbn [heap]. rewrite Hget, Hlive. cbn [heap mNativeContext effects].
  rewrite <- !app_assoc. reflexivity.
Qed.

(** [threadLoop] writes no object before [server->run()]. *)
Lemma to_run_heap (this : nat) (fd : Z) (w w' : World)
      (r : option MtpServer) :
  threadLoop_to_run this fd w = Ok (r, w') ->
  heap w' = heap w /\ mNativeContext w' = mNativeContext w /\
  (r = None \/
   exists self, heap w !! this = Some self /\ deleted self = false).
Proof.
  destruct (Z.lt_ge_cases fd 0) as [Hneg|Hfd].
  - rewrite (to_run_fail this fd w Hneg). intros [= <- <-].
    repeat split. left. reflexivity.
  - destruct (heap w !! this) as [self|] eqn:Hget.
    + destruct (deleted self) eqn:Hdel.
      * unfold threadLoop_to_run. cpp_simpl.
        destruct (Z.ltb_spec fd 0) as [|_]; [lia|].
        cbn [heap]. rewrite Hget, Hdel. discriminate.
      * rewrite (to_run_live this fd w self Hfd Hget Hdel).
        intros [= <- <-]. repeat split. right. eauto.
    + unfold threadLoop_to_run. cpp_simpl.
      destruct (Z.ltb_spec fd 0) as [|_]; [lia|].
      cbn [heap]. rewrite Hget. discriminate.
Qed.

Lemma from_run_live (this : nat) (fd : Z) (server : MtpServer) (w : World)
      (self : MtpThread) :
  heap w !! this = Some self -> deleted self = false ->
  threadLoop_from_run this fd server w =
    Ok (negb (mDone self),
        {| heap := after_check this self (heap w);
           mNativeContext := mNativeContext w;
           effects := effects w ++ session_end_events fd (mDone self) |}).
Proof.
  intros Hget Hlive. unfold threadLoop_from_run, after_check. cpp_simpl.
  rewrite Hget, Hlive.
  destruct (mDone self) eqn:Hdone; cpp_simpl.
  - rewrite Hget, Hlive. cbn [heap mNativeContext effects].
    rewrite <- !app_assoc. reflexivity.
  - rewrite <- !app_assoc. reflexivity.
Qed.

Lemma from_run_Ok (this : nat) (fd : Z) (server : MtpServer) (w w' : World)
      (b : bool) :
  threadLoop_from_run this fd server w = Ok (b, w') ->
  exists self,
    heap w !! this = Some self /\ deleted self = false /\
    b = negb (mDone self) /\
    w' = {| heap := after_check this self (heap w);
            mNativeContext := mNativeContext w;
            effects := effects w ++ session_end_events fd (mDone self) |}.
Proof.
  intros Hrun.
  destruct (heap w !! this) as [self|] eqn:Hget.
  - destruct (deleted self) eqn:Hdel.
    + revert Hrun. unfold threadLoop_from_run. cpp_simpl.
      rewrite Hget, Hdel. discriminate.
    + exists self. rewrite (from_run_live this fd server w self Hget Hdel) in Hrun.
      injection Hrun as <- <-. repeat split; auto.
  - revert Hrun. unfold threadLoop_from_run. cpp_simpl.
    rewrite Hget. discriminate.
Qed.

Lemma worker_begin_Ok (this : nat) (fd : Z) (w w' : World) :
  worker_begin this fd w = Ok (tt, w') ->
  exists s,
    heap w' = alter (set_worker s) this (heap w) /\
    mNativeContext w' = mNativeContext w /\
    (fd < 0 -> s = Exited) /\
    (s = Exited \/
     exists self, heap w !! this = Some self /\ deleted self = false).
Proof.
  unfold worker_begin, bind.
  destruct (threadLoop_to_run this fd w) as [[r w1]|] eqn:Hrun;
    [|discriminate].
  destruct (to_run_heap _ _ _ _ _ Hrun) as (Hheap & Hslot & Hlive).
  destruct r as [server|].
  - unfold enter_run. intros [= <-]. cbn [heap mNativeContext].
    exists (InRun fd server). rewrite Hheap. repeat split; auto.
    + intros Hneg. rewrite (to_run_fail this fd w Hneg) in Hrun.
      discriminate.
    + destruct Hlive as [|Hlive]; [discriminate|]. right. exact Hlive.
  - unfold after_threadLoop. intros [= <-]. cbn [heap mNativeContext].
    exists Exited. rewrite Hheap. repeat split; auto.
Qed.

Lemma worker_end_Ok (this : nat) (fd : Z) (server : MtpServer)
      (w w' : World) :
  worker_end this fd server w = Ok (tt, w') ->
  exists self,
    heap w !! this = Some self /\ deleted self = false /\
    heap w' = alter (set_worker (if mDone self then Exited else Scheduled))
                    this (after_check this self (heap w)) /\
    mNativeContext w' = mNativeContext w.
Proof.
  unfold worker_end, bind.
  destruct (threadLoop_from_run this fd server w) as [[b w1]|] eqn:Hrun;
    [|discriminate].
  destruct (from_run_Ok _ _ _ _ _ _ Hrun) as (self & Hget & Hlive & -> & ->).
  unfold after_threadLoop. intros [= <-]. cbn [heap mNativeContext].
  exists self. repeat split; auto.
  destruct (mDone self); reflexivity.
Qed.

(** ** What one step can do to one object *)

Lemma lookup_alter_worker (h : list MtpThread) (this i : nat) (s : Worker)
      (t : MtpThread) :
  h !! i = Some t ->
  alter (set_worker s) this h !! i =
    Some (if decide (this = i) then set_worker s t else t).
Proof.
  intros Hget. destruct (decide (this = i)) as [->|Hne].
  - rewrite list_lookup_alter_eq, Hget. reflexivity.
  - rewrite list_lookup_alter_ne, Hget by assumption. reflexivity.
Qed.

Lemma lookup_insert_object (h : list MtpThread) (this i : nat)
      (x t : MtpThread) :
  h !! i = Some t ->
  <[this := x]> h !! i = Some (if decide (this = i) then x else t).
Proof.
  intros Hget. destruct (decide (this = i)) as [->|Hne].
  - apply list_lookup_insert_eq. eapply lookup_lt_Some; eassumption.
  - rewrite list_lookup_insert_ne, Hget by assumption. reflexivity.
Qed.

Lemma step_change (w w' : World) (a : Action) (i : nat) (t : MtpThread) :
  step w a w' -> heap w !! i = Some t ->
  exists t', heap w' !! i = Some t' /\ change w a i t t'.
Proof.
  intros Hstep Hget. destruct Hstep as
    [w db path w' Hrun | w w' Hrun | w w' Hrun | w w' Hrun
    | w this fd self w' Hself Hw Hrun
    | w this fd server self w' Hself Hw Hrun].
  - rewrite setup_Ok in Hrun. injection Hrun as <-. cbn [heap].
    exists t. split; [|constructor]. now apply lookup_app_l_Some.
  - unfold android_media_MtpServer_finalize, emit in Hrun.
    injection Hrun as <-. exists t. split; [assumption|constructor].
  - destruct (start_Ok _ _ Hrun) as (this & self & _ & Hself & Hlive & ->).
    cbn [heap]. unfold launched.
    destruct (worker self);
      try (exists t; split; [assumption|constructor]).
    rewrite (lookup_insert_object _ _ _ _ _ Hget).
    destruct (decide (this = i)) as [->|_].
    + rewrite Hself in Hget. injection Hget as ->.
      eexists. split; [reflexivity|]. apply change_worker. now right.
    + exists t. split; [reflexivity|constructor].
  - destruct (stop_Ok _ _ Hrun)
      as [[_ ->] | (this & self & Hslot & Hself & Hlive & ->)]; cbn [heap].
    + exists t. split; [assumption|constructor].
    + rewrite (lookup_insert_object _ _ _ _ _ Hget).
      destruct (decide (this = i)) as [->|_].
      * rewrite Hself in Hget. injection Hget as ->.
        eexists. split; [reflexivity|]. now apply change_done.
      * exists t. split; [reflexivity|constructor].
  - destruct (worker_begin_Ok _ _ _ _ Hrun) as (s & -> & _ & _ & Hs).
    rewrite (lookup_alter_worker _ _ _ _ _ Hget).
    destruct (decide (this = i)) as [->|_];
      eexists; (split; [reflexivity|]); [|constructor].
    apply change_worker.
    destruct Hs as [Hs|(self' & Hself' & Hlive)]; [now left|].
    right. congruence.
  - destruct (worker_end_Ok _ _ _ _ _ Hrun)
      as (self' & Hself' & Hlive & -> & _).
    unfold after_check. destruct (mDone self') eqn:Hdone.
    + pose proof (lookup_insert_object _ this _ (set_deleted self') _ Hget)
        as Hins.
      rewrite (lookup_alter_worker _ _ _ _ _ Hins).
      destruct (decide (this = i)) as [->|_].
      * rewrite Hself' in Hget. injection Hget as ->.
        eexists. split; [reflexivity|]. now apply change_deleted.
      * exists t. split; [reflexivity|constructor].
    + rewrite (lookup_alter_worker _ _ _ _ _ Hget).
      destruct (decide (this = i)) as [->|_];
        eexists; (split; [reflexivity|]); [|constructor].
      apply change_worker. right. congruence.
Qed.

(** ** The slot of the controller *)

Lemma step_slot (w w' : World) (a : Action) :
  step w a w' ->
  mNativeContext w' =
    match a with
    | native_setup _ _ => ptr_of (length (heap w))
    | native_stop => 0
    | _ => mNativeContext w
    end.
Proof.
  intros Hstep. destruct Hstep as
    [w db path w' Hrun | w w' Hrun | w w' Hrun | w w' Hrun
    | w this fd self w' Hself Hw Hrun
    | w this fd server self w' Hself Hw Hrun].
  - rewrite setup_Ok in Hrun. injection Hrun as <-. reflexivity.
  - unfold android_media_MtpServer_finalize, emit in Hrun.
    injection Hrun as <-. reflexivity.
  - destruct (start_Ok _ _ Hrun) as (this & self & _ & _ & _ & ->).
    reflexivity.
  - destruct (stop_Ok _ _ Hrun) as [[E ->] | (this & self & _ & _ & _ & ->)];
      [exact E | reflexivity].
  - destruct (worker_begin_Ok _ _ _ _ Hrun) as (s & _ & E & _). exact E.
  - destruct (worker_end_Ok _ _ _ _ _ Hrun) as (self' & _ & _ & _ & E).
    exact E.
Qed.

(** A step that leaves the slot alone leaves it armed. *)
Lemma step_keeps_armed (w w' : World) (a : Action) :
  step w a w' -> a <> native_stop ->
  mNativeContext w' = mNativeContext w ->
  slot_armed w -> slot_armed w'.
Proof.
  intros Hstep Hns Hslot (this & self & Hp & Hget & Hlive & Hdone).
  destruct (step_change _ _ _ _ _ Hstep Hget) as (t' & Hget' & Hch).
  exists this, t'. rewrite Hslot. repeat split; try assumption.
  - destruct Hch; cbn; congruence.
  - destruct Hch; cbn; congruence.
Qed.

Lemma slot_history (h : list Action) (w : World) :
  steps initial h w ->
  if armed h then slot_armed w else mNativeContext w = 0.
Proof.
  intros Hsteps. remember initial as w0 eqn:Hw0.
  induction Hsteps as [w|w h w' a w'' Hsteps IH Hstep]; subst.
  - reflexivity.
  - specialize (IH eq_refl).
    pose proof (step_slot _ _ _ Hstep) as Hslot.
    destruct a as [db path| | | |this fd|this]; cbn [armed].
    + inversion Hstep as [? ? ? ? Hrun| | | | |]; subst.
      rewrite setup_Ok in Hrun. injection Hrun as <-.
      eexists (length (heap w')), _. cbn [heap mNativeContext].
      split; [reflexivity|]. split.
      { rewrite lookup_app_r by lia. rewrite Nat.sub_diag. reflexivity. }
      split; reflexivity.
    + destruct (armed h); [|congruence].
      eapply step_keeps_armed; eauto; discriminate.
    + destruct (armed h); [|congruence].
      eapply step_keeps_armed; eauto; discriminate.
    + exact Hslot.
    + destruct (armed h); [|congruence].
      eapply step_keeps_armed; eauto; discriminate.
    + destruct (armed h); [|congruence].
      eapply step_keeps_armed; eauto; discriminate.
Qed.

(** After a failed [open] the worker of [this] has exited. *)
Lemma opens_fail_exits (w w' : World) (this : nat) (fd : Z) :
  fd < 0 -> step w (worker_opens this fd) w' ->
  worker <$> heap w' !! this = Some Exited.
Proof.
  intros Hneg Hstep.
  inversion Hstep as [| | | |? ? ? self ? Hself Hw Hrun|]; subst.
  destruct (worker_begin_Ok _ _ _ _ Hrun) as (s & -> & _ & Hs & _).
  rewrite (Hs Hneg), list_lookup_alter_eq, Hself. reflexivity.
Qed.

(** An exited worker takes no step. *)
Lemma exited_is_final (w : World) (this : nat) :
  worker <$> heap w !! this = Some Exited ->
  (forall fd w', ~ step w (worker_opens this fd) w') /\
  (forall w', ~ step w (worker_returns this) w').
Proof.
  intros Hex. split.
  - intros fd w' Hstep.
    inversion Hstep as [| | | |? ? ? self ? Hself Hw Hrun|]; subst.
    rewrite Hself in Hex. cbn in Hex. congruence.
  - intros w' Hstep.
    inversion Hstep as [| | | | |? ? ? ? self ? Hself Hw Hrun]; subst.
    rewrite Hself in Hex. cbn in Hex. congruence.
Qed.

(** ** Workers run on live objects *)

(** An object that appears with a step is the one [setup] allocated. *)
Lemma step_new (w w' : World) (a : Action) (i : nat) (t' : MtpThread) :
  step w a w' -> heap w !! i = None -> heap w' !! i = Some t' ->
  worker t' = NotStarted.
Proof.
  intros Hstep Hnone Hget'.
  assert (Hlen : (length (heap w) <= i)%nat) by now apply lookup_ge_None.
  assert (Hfresh : forall h : list MtpThread,
             length h = length (heap w) -> h !! i = Some t' -> False).
  { intros h Hh Hi. apply lookup_lt_Some in Hi. lia. }
  destruct Hstep as
    [w db path w' Hrun | w w' Hrun | w w' Hrun | w w' Hrun
    | w this fd self w' Hself Hw Hrun
    | w this fd server self w' Hself Hw Hrun].
  - rewrite setup_Ok in Hrun. injection Hrun as <-. cbn [heap] in Hget'.
    rewrite lookup_app_r in Hget' by assumption.
    destruct (i - length (heap w))%nat; [|discriminate].
    injection Hget' as <-. reflexivity.
  - unfold android_media_MtpServer_finalize, emit in Hrun.
    injection Hrun as <-. cbn [heap] in Hget'. congruence.
  - destruct (start_Ok _ _ Hrun) as (this & self & _ & _ & _ & ->).
    cbn [heap] in Hget'. exfalso. eapply Hfresh; [|exact Hget'].
    unfold launched. destruct (worker self);
      rewrite ?length_insert; reflexivity.
  - destruct (stop_Ok _ _ Hrun) as [[_ ->] | (this & self & _ & _ & _ & ->)];
      cbn [heap] in Hget'; [congruence|].
    exfalso. eapply Hfresh; [|exact Hget']. apply length_insert.
  - destruct (worker_begin_Ok _ _ _ _ Hrun) as (s & E & _).
    rewrite E in Hget'. exfalso. eapply Hfresh; [|exact Hget'].
    apply length_alter.
  - destruct (worker_end_Ok _ _ _ _ _ Hrun) as (self' & _ & _ & E & _).
    rewrite E in Hget'. exfalso. eapply Hfresh; [|exact Hget'].
    rewrite length_alter. unfold after_check.
    destruct (mDone self'); rewrite ?length_insert; reflexivity.
Qed.

Lemma step_workers_alive (w w' : World) (a : Action) :
  step w a w' -> workers_alive w -> workers_alive w'.
Proof.
  intros Hstep Hinv i t' Hget' Hns Hne.
  destruct (heap w !! i) as [t|] eqn:Hget.
  - destruct (step_change _ _ _ _ _ Hstep Hget) as (t2 & Hget2 & Hch).
    assert (t2 = t') by congruence. subst t2.
    destruct Hch as [|s [->|Hlive]| |]; cbn in *;
      try congruence; eauto.
  - pose proof (step_new _ _ _ _ _ Hstep Hget Hget'). contradiction.
Qed.

Lemma steps_workers_alive (h : list Action) (w : World) :
  steps initial h w -> workers_alive w.
Proof.
  intros Hsteps. remember initial as w0 eqn:Hw0.
  induction Hsteps as [w|w h w' a w'' Hsteps IH Hstep]; subst.
  - intros i t Hget. discriminate Hget.
  - eapply step_workers_alive; eauto.
Qed.

(** X2: [delete this] never comes back to hurt a worker.  In every
    world the program can reach, a scheduled worker can run its iteration
    whatever [open] returns, and a worker inside [run] can return from it:
    no worker step reads a deleted object or faults otherwise. *)
Lemma worker_steps_enabled (h : list Action) (w : World) (this : nat)
      (self : MtpThread) :
  steps initial h w -> heap w !! this = Some self ->
  (worker self = Scheduled ->
   forall fd, exists w', step w (worker_opens this fd) w') /\
  (forall fd server, worker self = InRun fd server ->
   exists w', step w (worker_returns this) w').
Proof.
  intros Hsteps Hget. pose proof (steps_workers_alive h w Hsteps) as Hinv.
  split.
  - intros Hw fd.
    assert (Hlive : deleted self = false).
    { apply (Hinv this self Hget); rewrite Hw; discriminate. }
    destruct (Z.lt_ge_cases fd 0) as [Hneg|Hfd].
    + eexists. eapply step_opens; [exact Hget | exact Hw |].
      unfold worker_begin, bind. rewrite (to_run_fail this fd w Hneg).
      reflexivity.
    + eexists. eapply step_opens; [exact Hget | exact Hw |].
      unfold worker_begin, bind.
      rewrite (to_run_live this fd w self Hfd Hget Hlive). reflexivity.
  - intros fd server Hw.
    assert (Hlive : deleted self = false).
    { apply (Hinv this self Hget); rewrite Hw; discriminate. }
    eexists. eapply step_returns; [exact Hget | exact Hw |].
    unfold worker_end, bind.
    rewrite (from_run_live this fd server w self Hget Hlive). reflexivity.
Qed.

(** ** One step, in full *)

Lemma to_run_deleted (this : nat) (fd : Z) (w : World) (self : MtpThread) :
  0 <= fd -> heap w !! this = Some self -> deleted self = true ->
  threadLoop_to_run this fd w = Fault UseAfterFree.
Proof.
  intros Hfd Hget Hdel. unfold threadLoop_to_run. cpp_simpl.
  destruct (Z.ltb_spec fd 0) as [|_]; [lia|].
  cbn [heap]. rewrite Hget, Hdel. reflexivity.
Qed.

(** The world after a step, for each action. *)
Lemma step_world (w w' : World) (a : Action) :
  step w a w' ->
  match a with
  | native_setup javaDatabase storagePath =>
      w' = {| heap := heap w ++
                [ {| mDatabase := getMtpDatabase javaDatabase;
                     mStoragePath := storagePath;
                     mDone := false;
                     worker := NotStarted;
                     deleted := false |} ];
              mNativeContext := ptr_of (length (heap w));
              effects := effects w ++ [setup_log] |}
  | native_finalize =>
      w' = {| heap := heap w; mNativeContext := mNativeContext w;
              effects := effects w ++ [LOGD ("finalize" +:+ nl)] |}
  | native_start =>
      exists this self,
        mNativeContext w = ptr_of this /\
        heap w !! this = Some self /\ deleted self = false /\
        w' = {| heap := launched this self (heap w);
                mNativeContext := mNativeContext w;
                effects := effects w ++
                  [start_log; Thread_run_called this "MtpThread"] |}
  | native_stop =>
      (mNativeContext w = 0 /\
       w' = {| heap := heap w; mNativeContext := mNativeContext w;
               effects := effects w ++ [stop_log] |})
      \/
      (exists this self,
         mNativeContext w = ptr_of this /\
         heap w !! this = Some self /\ deleted self = false /\
         w' = {| heap := <[this := set_mDone true self]> (heap w);
                 mNativeContext := 0;
                 effects := effects w ++ [stop_log] |})
  | worker_opens this fd =>
      exists self,
        heap w !! this = Some self /\ worker self = Scheduled /\
        ((fd < 0 /\
          w' = {| heap := alter (set_worker Exited) this (heap w);
                  mNativeContext := mNativeContext w;
                  effects := effects w ++ open_failed_events fd |})
         \/
         (0 <= fd /\ deleted self = false /\
          w' = {| heap := alter (set_worker (InRun fd (server_of fd self)))
                                this (heap w);
                  mNativeContext := mNativeContext w;
                  effects := effects w ++ session_start_events fd self |}))
  | worker_returns this =>
      exists self fd server,
        heap w !! this = Some self /\ worker self = InRun fd server /\
        deleted self = false /\
        w' = {| heap := alter (set_worker (if mDone self then Exited
                                           else Scheduled))
                              this (after_check this self (heap w));
                mNativeContext := mNativeContext w;
                effects := effects w ++ session_end_events fd (mDone self) |}
  end.
Proof.
  intros Hstep. destruct Hstep as
    [w db path w' Hrun | w w' Hrun | w w' Hrun | w w' Hrun
    | w this fd self w' Hself Hw Hrun
    | w this fd server self w' Hself Hw Hrun].
  - rewrite setup_Ok in Hrun. congruence.
  - unfold android_media_MtpServer_finalize, emit in Hrun. congruence.
  - exact (start_Ok _ _ Hrun).
  - exact (stop_Ok _ _ Hrun).
  - exists self. split; [exact Hself|]. split; [exact Hw|].
    unfold worker_begin, bind in Hrun.
    destruct (Z.lt_ge_cases fd 0) as [Hneg|Hfd].
    + left. split; [exact Hneg|].
      rewrite (to_run_fail this fd w Hneg) in Hrun.
      unfold after_threadLoop in Hrun. cbn [heap mNativeContext effects] in Hrun.
      congruence.
    + right. split; [exact Hfd|].
      destruct (deleted self) eqn:Hdel.
      * rewrite (to_run_deleted this fd w self Hfd Hself Hdel) in Hrun.
        discriminate.
      * split; [reflexivity|].
        rewrite (to_run_live this fd w self Hfd Hself Hdel) in Hrun.
        unfold enter_run in Hrun. cbn [heap mNativeContext effects] in Hrun.
        congruence.
  - unfold worker_end, bind in Hrun.
    destruct (threadLoop_from_run this fd server w) as [[b w1]|] eqn:Hfrom;
      [|discriminate].
    destruct (from_run_Ok _ _ _ _ _ _ Hfrom) as (self' & Hself' & Hlive & -> & ->).
    assert (self' = self) by congruence. subst self'.
    exists self, fd, server. repeat split; try assumption.
    unfold after_threadLoop in Hrun. cbn [heap mNativeContext effects] in Hrun.
    destruct (mDone self); cbn [negb] in Hrun; congruence.
Qed.

(** ** Counting *)

Lemma count_app {A} (p : A -> bool) (l k : list A) :
  count p (l ++ k) = (count p l + count p k)%nat.
Proof. induction l as [|x l IH]; cbn; [reflexivity|]. rewrite IH. lia. Qed.

Lemma count_insert {A} (p : A -> bool) (l : list A) (i : nat) (x y : A) :
  l !! i = Some x ->
  (count p (<[i := y]> l) + (if p x then 1 else 0)
   = count p l + (if p y then 1 else 0))%nat.
Proof.
  revert i. induction l as [|z l IH]; intros [|i] Hget; try discriminate.
  - injection Hget as ->. simpl. lia.
  - simpl in Hget. specialize (IH i Hget). simpl.
    change (list_insert i y l) with (<[i := y]> l). lia.
Qed.

Lemma alter_as_insert {A} (f : A -> A) (l : list A) (i : nat) (x : A) :
  l !! i = Some x -> alter f i l = <[i := f x]> l.
Proof.
  revert i. induction l as [|z l IH]; intros [|i] Hget; try discriminate.
  - injection Hget as ->. reflexivity.
  - simpl in Hget. simpl. f_equal. now apply IH.
Qed.

Lemma fmap_insert_same {A B} (f : A -> B) (l : list A) (i : nat) (x y : A) :
  l !! i = Some x -> f y = f x -> f <$> <[i := y]> l = f <$> l.
Proof.
  revert i. induction l as [|z l IH]; intros [|i] Hget Hf; try discriminate.
  - injection Hget as ->. simpl. now rewrite Hf.
  - simpl in Hget. simpl. f_equal. now apply IH.
Qed.

(** ** The worker's loop body *)

(** C1: in an iteration whose [open] returns a negative descriptor, no
    [MtpServer] is constructed and [threadLoop] returns at once: it
    returns [false] whatever the other threads would have done during a
    run, touches neither the heap nor the slot, makes exactly the three
    calls [open], [printf] and [LOGE], and afterwards the worker of this
    object takes no further step (nothing retries the iteration). *)
Theorem open_failure_builds_no_server
    (this : nat) (fd : Z) (meanwhile : M unit) (w : World) :
  fd < 0 ->
  exists w',
    threadLoop this fd meanwhile w = Ok (false, w') /\
    threadLoop_to_run this fd w = Ok (None, w') /\
    heap w' = heap w /\ mNativeContext w' = mNativeContext w /\
    emitted w w' = [sys_open "/dev/mtp_usb" O_RDWR fd;
                    printf ("open returned %d" +:+ nl) fd;
                    LOGE ("could not open MTP driver" +:+ nl)] /\
    existsb is_new_MtpServer (emitted w w') = false /\
    forall w'', step w (worker_opens this fd) w'' ->
      (forall fd' w3, ~ step w'' (worker_opens this fd') w3) /\
      (forall w3, ~ step w'' (worker_returns this) w3).
Proof.
  intros Hneg. eexists.
  assert (Hto := to_run_fail this fd w Hneg).
  split; [|split; [exact Hto|]].
  - unfold threadLoop, bind. rewrite Hto. reflexivity.
  - cbn [heap mNativeContext].
    rewrite (emitted_app w _ (open_failed_events fd)) by reflexivity.
    repeat split.
    + intros fd' w3. eapply exited_is_final. eapply opens_fail_exits; eauto.
    + intros w3. eapply exited_is_final. eapply opens_fail_exits; eauto.
Qed.

(** C2 (as amended): in an iteration whose [open] fails, [threadLoop]
    returns [false], the value that prevents rescheduling, and never
    [true]; the worker of the object has exited after that iteration. *)
Theorem open_failure_returns_false
    (this : nat) (fd : Z) (meanwhile : M unit) (w : World) :
  fd < 0 ->
  (exists w', threadLoop this fd meanwhile w = Ok (false, w')) /\
  (forall b w', threadLoop this fd meanwhile w = Ok (b, w') -> b = false) /\
  (forall w', step w (worker_opens this fd) w' ->
              worker <$> heap w' !! this = Some Exited).
Proof.
  intros Hneg.
  assert (Hrun : exists w', threadLoop this fd meanwhile w = Ok (false, w')).
  { eexists. unfold threadLoop, bind.
    rewrite (to_run_fail this fd w Hneg). reflexivity. }
  split; [exact Hrun|]. split.
  - destruct Hrun as [w1 Hrun]. intros b w'. rewrite Hrun. congruence.
  - intros w'. now apply opens_fail_exits.
Qed.

(** C3: an iteration that got as far as [server->run()] closes the
    descriptor and destroys the server when [run] returns, then reads
    [mDone] of its object.  If it is set, [threadLoop] deletes the object
    and returns [false], and the worker has exited; if it is not set,
    [threadLoop] returns [true] with the heap untouched, and the worker is
    scheduled for another iteration. *)
Theorem completed_run_checks_flag
    (this : nat) (fd : Z) (meanwhile : M unit) (w w1 w2 : World)
    (server : MtpServer) (self : MtpThread) :
  threadLoop_to_run this fd w = Ok (Some server, w1) ->
  meanwhile w1 = Ok (tt, w2) ->
  heap w2 !! this = Some self -> deleted self = false ->
  exists w3 w4,
    threadLoop this fd meanwhile w = Ok (negb (mDone self), w3) /\
    emitted w2 w3 =
      [sys_close fd; delete_MtpServer;
       LOGD ("threadLoop returning " +:+
             (if mDone self then "false" else "true"))] /\
    mNativeContext w3 = mNativeContext w2 /\
    (mDone self = true ->
       heap w3 = <[this := set_deleted self]> (heap w2) /\
       deleted <$> heap w3 !! this = Some true) /\
    (mDone self = false -> heap w3 = heap w2) /\
    worker_end this fd server w2 = Ok (tt, w4) /\
    worker <$> heap w4 !! this =
      Some (if mDone self then Exited else Scheduled).
Proof.
  intros Hto Hmean Hget Hlive.
  assert (Hfrom := from_run_live this fd server w2 self Hget Hlive).
  eexists. eexists.
  split.
  { unfold threadLoop, bind. rewrite Hto, Hmean. exact Hfrom. }
  split.
  { apply emitted_app. reflexivity. }
  split; [reflexivity|].
  cbn [heap]. unfold after_check.
  split; [|split; [|split]].
  - intros ->. split; [reflexivity|].
    rewrite (lookup_insert_object _ _ _ _ _ Hget).
    destruct (decide (this = this)); [reflexivity|congruence].
  - intros ->. reflexivity.
  - unfold worker_end, bind. rewrite Hfrom. reflexivity.
  - cbn [heap]. unfold after_check. destruct (mDone self).
    + rewrite list_lookup_alter_eq,
        (lookup_insert_object _ _ _ _ _ Hget).
      destruct (decide (this = this)); [reflexivity|congruence].
    + rewrite list_lookup_alter_eq, Hget. reflexivity.
Qed.

(** C8 (as amended): in an iteration whose [open] succeeds, the
    [MtpServer] is constructed once, with exactly five arguments: the
    descriptor that [open] returned, the database pointer of the object,
    the group id [AID_SDCARD_RW], the file mode [0664] (436) and the
    directory mode [0775] (509).  The last three are constants; there is
    no user id among the arguments. *)
Theorem server_constructed_with_five_arguments
    (this : nat) (fd : Z) (w : World) (self : MtpThread) :
  0 <= fd -> heap w !! this = Some self -> deleted self = false ->
  exists server w',
    threadLoop_to_run this fd w = Ok (Some server, w') /\
    srv_args server =
      [AFd fd; ADatabase (mDatabase self); AInt AID_SDCARD_RW;
       AInt 436; AInt 509] /\
    length (srv_args server) = 5%nat /\
    filter (fun e => is_new_MtpServer e = true) (emitted w w') =
      [new_MtpServer (srv_args server)].
Proof.
  intros Hfd Hget Hlive.
  exists (server_of fd self). eexists.
  split; [exact (to_run_live this fd w self Hfd Hget Hlive)|].
  split; [reflexivity|]. split; [reflexivity|].
  rewrite (emitted_app w _ (session_start_events fd self)) by reflexivity.
  reflexivity.
Qed.

(** ** The completion flag *)

Lemma steps_flag_stays (w w' : World) (h : list Action) (this : nat)
      (t : MtpThread) :
  steps w h w' -> heap w !! this = Some t -> mDone t = true ->
  exists t', heap w' !! this = Some t' /\ mDone t' = true.
Proof.
  intros Hsteps Hget Hdone.
  induction Hsteps as [w|w h w' a w'' Hsteps IH Hstep].
  - exists t. split; assumption.
  - destruct (IH Hget) as (t1 & Hget1 & Hdone1).
    destruct (step_change _ _ _ _ _ Hstep Hget1) as (t2 & Hget2 & Hch).
    exists t2. split; [assumption|].
    destruct Hch; cbn; assumption || reflexivity.
Qed.

(** C4: the completion flag of a handle only ever goes from cleared to
    set.  [setup] creates the handle with [mDone] cleared; [setDone]
    writes [true]; a step that changes [mDone] of an existing handle is
    [native_stop] acting through the slot, and the new value is [true];
    and over any sequence of native calls and worker steps a flag that is
    set stays set. *)
Theorem completion_flag_is_monotone :
  (forall javaDatabase storagePath w,
     exists w' t,
       android_media_MtpServer_setup javaDatabase storagePath w
         = Ok (tt, w') /\
       mNativeContext w' = ptr_of (length (heap w)) /\
       heap w' !! length (heap w) = Some t /\ mDone t = false) /\
  (forall this w w',
     setDone this w = Ok (tt, w') ->
     mDone <$> heap w' !! this = Some true) /\
  (forall w a w' this t t',
     step w a w' ->
     heap w !! this = Some t -> heap w' !! this = Some t' ->
     mDone t' <> mDone t ->
     a = native_stop /\ mNativeContext w = ptr_of this /\
     mDone t = false /\ mDone t' = true) /\
  (forall w h w' this t,
     steps w h w' ->
     heap w !! this = Some t -> mDone t = true ->
     exists t', heap w' !! this = Some t' /\ mDone t' = true).
Proof.
  split; [|split; [|split]].
  - intros db path w. eexists. eexists.
    split; [apply setup_Ok|]. cbn [heap mNativeContext].
    split; [reflexivity|]. split.
    + rewrite lookup_app_r by lia. rewrite Nat.sub_diag. reflexivity.
    + reflexivity.
  - intros this w w'. unfold setDone. cpp_simpl.
    destruct (heap w !! this) as [self|] eqn:Hget; [|discriminate].
    destruct (deleted self); [discriminate|].
    intros [= <-]. cbn [heap].
    rewrite (lookup_insert_object _ _ _ _ _ Hget).
    destruct (decide (this = this)); [reflexivity|congruence].
  - intros w a w' this t t' Hstep Hget Hget' Hne.
    destruct (step_change _ _ _ _ _ Hstep Hget) as (t2 & Hget2 & Hch).
    assert (t2 = t') by congruence. subst t2.
    destruct Hch; cbn in Hne; try congruence.
    repeat split; try assumption.
    destruct (mDone t); [congruence|reflexivity].
  - intros w h w' this t. apply steps_flag_stays.
Qed.

(** ** [native_stop] *)

(** C5: with the slot referring to a live handle, [stop] returns normally
    in a world that differs from the one before in exactly this: [mDone]
    of that handle is [true], the slot is [0], and the log has one more
    line.  The worker state of the handle is what it was: [stop] neither
    reads it nor waits for it to change. *)
Theorem stop_sets_flag_and_clears_slot
    (w : World) (this : nat) (self : MtpThread) :
  mNativeContext w = ptr_of this ->
  heap w !! this = Some self -> deleted self = false ->
  mNativeContext w <> 0 /\
  exists w',
    android_media_MtpServer_stop w = Ok (tt, w') /\
    heap w' = <[this := set_mDone true self]> (heap w) /\
    mDone <$> heap w' !! this = Some true /\
    worker <$> heap w' !! this = Some (worker self) /\
    (forall i, i <> this -> heap w' !! i = heap w !! i) /\
    mNativeContext w' = 0 /\
    emitted w w' = [LOGD ("stop" +:+ nl)].
Proof.
  intros Hslot Hget Hlive. split.
  { rewrite Hslot. apply ptr_of_nonzero. }
  eexists. split; [exact (stop_live w this self Hslot Hget Hlive)|].
  cbn [heap mNativeContext].
  rewrite (lookup_insert_object _ _ _ _ _ Hget).
  destruct (decide (this = this)); [|congruence].
  repeat split.
  - intros i Hne. now apply list_lookup_insert_ne.
  - apply emitted_app. reflexivity.
Qed.

(** C6 (as amended): with the slot null, [stop] is guarded by its check
    of the slot: it returns normally, the heap and the slot are what they
    were, and only the log has one more line; a second [stop] finds the
    same.  The slot is null before any [setup] and after every [stop]; so
    along every history from the initial world in which the last native
    method that wrote the slot was not [setup], a history without any
    [setup] among them, [stop] is that no-op.  A [stop] after [setup] and
    before [start] is not: the slot refers to a handle whose worker was
    never started, and [stop] sets its flag and clears the slot, after
    which a second [stop] is the no-op. *)
Theorem stop_without_handle_is_noop :
  mNativeContext initial = 0 /\
  (forall w w', android_media_MtpServer_stop w = Ok (tt, w') ->
                mNativeContext w' = 0) /\
  (forall w,
     mNativeContext w = 0 ->
     exists w' w'',
       android_media_MtpServer_stop w = Ok (tt, w') /\
       heap w' = heap w /\ mNativeContext w' = mNativeContext w /\
       emitted w w' = [LOGD ("stop" +:+ nl)] /\
       android_media_MtpServer_stop w' = Ok (tt, w'') /\
       heap w'' = heap w /\ mNativeContext w'' = mNativeContext w /\
       emitted w' w'' = [LOGD ("stop" +:+ nl)]) /\
  (forall h w,
     steps initial h w -> armed h = false ->
     exists w',
       android_media_MtpServer_stop w = Ok (tt, w') /\
       heap w' = heap w /\ mNativeContext w' = mNativeContext w /\
       emitted w w' = [LOGD ("stop" +:+ nl)]) /\
  (forall w this self,
     mNativeContext w = ptr_of this ->
     heap w !! this = Some self -> deleted self = false ->
     worker self = NotStarted ->
     exists w' w'',
       android_media_MtpServer_stop w = Ok (tt, w') /\
       heap w' = <[this := set_mDone true self]> (heap w) /\
       mDone <$> heap w' !! this = Some true /\
       worker <$> heap w' !! this = Some NotStarted /\
       mNativeContext w' = 0 /\ mNativeContext w' <> mNativeContext w /\
       android_media_MtpServer_stop w' = Ok (tt, w'') /\
       heap w'' = heap w' /\ mNativeContext w'' = mNativeContext w').
Proof.
  assert (Hnoop : forall w, mNativeContext w = 0 ->
            exists w',
              android_media_MtpServer_stop w = Ok (tt, w') /\
              heap w' = heap w /\ mNativeContext w' = mNativeContext w /\
              emitted w w' = [LOGD ("stop" +:+ nl)]).
  { intros w Hnull. eexists. split; [exact (stop_null w Hnull)|].
    split; [reflexivity|]. split; [reflexivity|].
    apply emitted_app. reflexivity. }
  split; [reflexivity|]. split; [|split; [|split]].
  - intros w w' Hrun.
    destruct (stop_Ok _ _ Hrun) as [[E ->] | (this & self & _ & _ & _ & ->)];
      [exact E | reflexivity].
  - intros w Hnull.
    destruct (Hnoop w Hnull) as (w' & Hrun & Hheap & Hslot & Hemit).
    destruct (Hnoop w') as (w'' & Hrun' & Hheap' & Hslot' & Hemit').
    { now rewrite Hslot. }
    exists w', w''. repeat split; try assumption; congruence.
  - intros h w Hsteps Harmed. apply Hnoop.
    pose proof (slot_history h w Hsteps) as Hslot.
    rewrite Harmed in Hslot. exact Hslot.
  - intros w this self Hslot Hget Hlive Hws.
    destruct (Hnoop {| heap := <[this := set_mDone true self]> (heap w);
                       mNativeContext := 0;
                       effects := effects w ++ [stop_log] |} eq_refl)
      as (w'' & Hrun' & Hheap' & Hslot' & _).
    eexists. exists w''.
    split; [exact (stop_live w this self Hslot Hget Hlive)|].
    cbn [heap mNativeContext] in *.
    rewrite (lookup_insert_object _ _ _ _ _ Hget).
    destruct (decide (this = this)); [|congruence].
    cbn. rewrite Hws, Hslot.
    repeat split; try assumption; try reflexivity.
    intros E. symmetry in E. now apply ptr_of_nonzero in E.
Qed.

(** ** [native_setup] *)

(** C7: for every database reference and storage path, [setup] returns
    normally; it appends one handle to the heap, holding the database
    pointer and the path, with [mDone] cleared, no worker started and not
    deleted; it stores the handle's address in the slot; the handles that
    existed are untouched; and its only call to the outside is one log
    line: no [open], no [Thread::run]. *)
Theorem setup_only_constructs
    (javaDatabase : jobject) (storagePath : string) (w : World) :
  exists w',
    android_media_MtpServer_setup javaDatabase storagePath w = Ok (tt, w') /\
    heap w' = heap w ++ [ {| mDatabase := getMtpDatabase javaDatabase;
                             mStoragePath := storagePath;
                             mDone := false;
                             worker := NotStarted;
                             deleted := false |} ] /\
    mNativeContext w' = ptr_of (length (heap w)) /\
    deref (mNativeContext w') w' = Ok (length (heap w), w') /\
    emitted w w' = [LOGD ("setup" +:+ nl)] /\
    existsb is_sys_open (emitted w w') = false /\
    existsb is_Thread_run (emitted w w') = false /\
    forall i, (i < length (heap w))%nat -> heap w' !! i = heap w !! i.
Proof.
  eexists. split; [apply setup_Ok|]. cbn [heap mNativeContext].
  split; [reflexivity|]. split; [reflexivity|].
  split.
  { eapply deref_live; cbn [heap].
    - rewrite lookup_app_r by lia. rewrite Nat.sub_diag. reflexivity.
    - reflexivity. }
  rewrite (emitted_app w _ [setup_log]) by reflexivity.
  repeat split.
  intros i Hi. now apply lookup_app_l.
Qed.

(** ** [native_start] *)

(** C9: [start] has no check of the slot.  With the slot null, where
    [stop] returns normally, [start] follows the null pointer; that is so
    before any [setup] and after any [stop].  Along every history from the
    initial world [start] is safe exactly when the last native method that
    wrote the slot was [setup]. *)
Theorem start_dereferences_unchecked :
  (forall w,
     mNativeContext w = 0 ->
     android_media_MtpServer_start w = Fault NullPointer /\
     exists w', android_media_MtpServer_stop w = Ok (tt, w')) /\
  android_media_MtpServer_start initial = Fault NullPointer /\
  (forall w w',
     android_media_MtpServer_stop w = Ok (tt, w') ->
     android_media_MtpServer_start w' = Fault NullPointer) /\
  (forall h w,
     steps initial h w ->
     (exists w', android_media_MtpServer_start w = Ok (tt, w')) <->
     armed h = true).
Proof.
  split; [|split; [|split]].
  - intros w Hnull. split; [now apply start_null|].
    eexists. now apply stop_null.
  - reflexivity.
  - intros w w' Hrun. apply start_null.
    destruct (stop_Ok _ _ Hrun) as [[E ->] | (this & self & _ & _ & _ & ->)];
      [exact E | reflexivity].
  - intros h w Hsteps. pose proof (slot_history h w Hsteps) as Hslot.
    destruct (armed h); split.
    + reflexivity.
    + intros _. destruct Hslot as (this & self & Hp & Hget & Hlive & _).
      eexists. exact (start_live w this self Hp Hget Hlive).
    + intros [w' Hrun]. rewrite (start_null w Hslot) in Hrun. discriminate.
    + discriminate.
Qed.

(** ** Who releases the handle *)

(** C10: a handle is deleted only by its own worker, in the part of
    [threadLoop] after [server->run()], and only when that worker read
    [mDone] as [true].  An iteration whose [open] failed leaves every
    handle as allocated as it was, with its own worker exited; an
    iteration that completes with [mDone] cleared leaves its handle
    allocated and its worker scheduled again. *)
Theorem handle_released_only_after_flagged_run :
  (forall w a w' this t t',
     step w a w' ->
     heap w !! this = Some t -> heap w' !! this = Some t' ->
     deleted t = false -> deleted t' = true ->
     a = worker_returns this /\ mDone t = true) /\
  (forall this fd meanwhile w,
     fd < 0 ->
     exists w', threadLoop this fd meanwhile w = Ok (false, w') /\
                heap w' = heap w) /\
  (forall w this fd w' t,
     fd < 0 -> step w (worker_opens this fd) w' ->
     heap w !! this = Some t ->
     exists t', heap w' !! this = Some t' /\
                deleted t' = deleted t /\ worker t' = Exited) /\
  (forall w this w' t,
     step w (worker_returns this) w' ->
     heap w !! this = Some t -> mDone t = false ->
     exists t', heap w' !! this = Some t' /\
                deleted t' = false /\ worker t' = Scheduled).
Proof.
  split; [|split; [|split]].
  - intros w a w' this t t' Hstep Hget Hget' Hlive Hdel.
    destruct (step_change _ _ _ _ _ Hstep Hget) as (t2 & Hget2 & Hch).
    assert (t2 = t') by congruence. subst t2.
    destruct Hch; cbn in Hdel; try congruence.
    split; assumption.
  - intros this fd meanwhile w Hneg. eexists.
    unfold threadLoop, bind. rewrite (to_run_fail this fd w Hneg).
    split; reflexivity.
  - intros w this fd w' t Hneg Hstep Hget.
    inversion Hstep as [| | | |? ? ? self ? Hself Hw Hrun|]; subst.
    destruct (worker_begin_Ok _ _ _ _ Hrun) as (s & -> & _ & Hs & _).
    rewrite (Hs Hneg), list_lookup_alter_eq, Hget.
    eexists. split; [reflexivity|]. split; reflexivity.
  - intros w this w' t Hstep Hget Hdone.
    inversion Hstep as [| | | | |? ? fd server self ? Hself Hw Hrun]; subst.
    destruct (worker_end_Ok _ _ _ _ _ Hrun)
      as (self' & Hself' & Hlive & -> & _).
    assert (self' = t) by congruence. subst self'.
    unfold after_check. rewrite Hdone, list_lookup_alter_eq, Hget.
    eexists. split; [reflexivity|]. split; [exact Hlive|reflexivity].
Qed.

(** ** Whole sessions *)

(** X1: along every history from the initial world the slot never
    dangles.  It is null or holds the address of a handle that is not
    deleted and was not asked to stop; so [stop] always returns normally,
    and [start] either returns normally or follows a null pointer, never a
    freed or a wild one. *)
Theorem slot_never_dangles (h : list Action) (w : World) :
  steps initial h w ->
  (mNativeContext w = 0 \/
   exists this self,
     mNativeContext w = ptr_of this /\ heap w !! this = Some self /\
     deleted self = false /\ mDone self = false) /\
  (exists w', android_media_MtpServer_stop w = Ok (tt, w')) /\
  ((exists w', android_media_MtpServer_start w = Ok (tt, w')) \/
   android_media_MtpServer_start w = Fault NullPointer).
Proof.
  intros Hsteps. pose proof (slot_history h w Hsteps) as Hslot.
  destruct (armed h).
  - destruct Hslot as (this & self & Hp & Hget & Hlive & Hdone).
    split; [right; exists this, self; auto|]. split.
    + eexists. exact (stop_live w this self Hp Hget Hlive).
    + left. eexists. exact (start_live w this self Hp Hget Hlive).
  - split; [left; exact Hslot|]. split.
    + eexists. exact (stop_null w Hslot).
    + right. exact (start_null w Hslot).
Qed.

(** X3: only [stop] ends a session.  Over a history without
    [native_stop], from any world, a handle whose flag is cleared keeps it
    cleared and is as allocated at the end as it was at the start. *)
Theorem only_stop_ends_a_session
    (w w' : World) (h : list Action) (i : nat) (t : MtpThread) :
  steps w h w' -> ~ In native_stop h ->
  heap w !! i = Some t -> mDone t = false ->
  exists t', heap w' !! i = Some t' /\
             mDone t' = false /\ deleted t' = deleted t.
Proof.
  intros Hsteps Hns Hget Hdone.
  induction Hsteps as [w|w h w' a w'' Hsteps IH Hstep].
  - exists t. auto.
  - assert (Hns' : ~ In native_stop h).
    { intros Hin. apply Hns. now right. }
    destruct (IH Hns' Hget) as (t1 & Hget1 & Hdone1 & Hdel1).
    destruct (step_change _ _ _ _ _ Hstep Hget1) as (t2 & Hget2 & Hch).
    exists t2. split; [exact Hget2|].
    destruct Hch as [|s Hs|Ha _ _|_ Hd _]; cbn.
    + auto.
    + auto.
    + exfalso. apply Hns. left. exact Ha.
    + congruence.
Qed.

(** X4: a handle the slot does not refer to is out of reach for good.
    Whatever the controller and the workers do afterwards, [stop]
    included, the slot never refers to it again, its flag stays cleared
    and it is never deleted. *)
Theorem orphaned_handle_is_never_released
    (w w' : World) (h : list Action) (i : nat) (t : MtpThread) :
  steps w h w' ->
  heap w !! i = Some t -> mNativeContext w <> ptr_of i -> mDone t = false ->
  exists t', heap w' !! i = Some t' /\
             mNativeContext w' <> ptr_of i /\
             mDone t' = false /\ deleted t' = deleted t.
Proof.
  intros Hsteps Hget Hslot Hdone.
  induction Hsteps as [w|w h w' a w'' Hsteps IH Hstep].
  - exists t. auto.
  - destruct (IH Hget Hslot) as (t1 & Hget1 & Hslot1 & Hdone1 & Hdel1).
    destruct (step_change _ _ _ _ _ Hstep Hget1) as (t2 & Hget2 & Hch).
    exists t2. split; [exact Hget2|]. split.
    + rewrite (step_slot _ _ _ Hstep).
      apply lookup_lt_Some in Hget1.
      destruct a; try exact Hslot1; unfold ptr_of; lia.
    + destruct Hch as [|s Hs|_ Hp _|_ Hd _]; cbn; auto; congruence.
Qed.

(** X5: a [stop] while the worker is inside [run] takes effect when [run]
    returns.  [stop] returns at once; the next step of the worker closes
    the descriptor it holds, destroys the server, deletes the handle and
    ends the worker, which takes no further step. *)
Theorem stop_during_run_releases
    (w : World) (this : nat) (self : MtpThread) (fd : Z)
    (server : MtpServer) :
  mNativeContext w = ptr_of this ->
  heap w !! this = Some self -> deleted self = false ->
  worker self = InRun fd server ->
  exists w1 w2 t,
    android_media_MtpServer_stop w = Ok (tt, w1) /\
    step w1 (worker_returns this) w2 /\
    emitted w1 w2 = [sys_close fd; delete_MtpServer;
                     LOGD "threadLoop returning false"] /\
    heap w2 !! this = Some t /\
    deleted t = true /\ worker t = Exited /\
    mNativeContext w2 = 0 /\
    (forall fd' w3, ~ step w2 (worker_opens this fd') w3) /\
    (forall w3, ~ step w2 (worker_returns this) w3).
Proof.
  intros Hslot Hget Hlive Hw.
  set (self1 := set_mDone true self).
  set (w1 := {| heap := <[this := self1]> (heap w);
                mNativeContext := 0;
                effects := effects w ++ [stop_log] |}).
  assert (Hget1 : heap w1 !! this = Some self1).
  { cbn [heap w1]. rewrite (lookup_insert_object _ _ _ _ _ Hget).
    destruct (decide (this = this)); [reflexivity|congruence]. }
  assert (Hfrom := from_run_live this fd server w1 self1 Hget1 Hlive).
  cbn [mDone self1 set_mDone negb] in Hfrom.
  eexists w1, _, _.
  split; [exact (stop_live w this self Hslot Hget Hlive)|].
  split.
  { eapply step_returns; [exact Hget1 | exact Hw |].
    unfold worker_end, bind. rewrite Hfrom. reflexivity. }
  cbn [heap mNativeContext].
  assert (Hget2 :
    alter (set_worker Exited) this (after_check this self1 (heap w1)) !! this
    = Some (set_worker Exited (set_deleted self1))).
  { unfold after_check. cbn [mDone self1 set_mDone].
    rewrite list_lookup_alter_eq,
      (lookup_insert_object _ _ _ _ _ Hget1).
    destruct (decide (this = this)); [reflexivity|congruence]. }
  split; [apply emitted_app; reflexivity|].
  split; [exact Hget2|].
  split; [reflexivity|]. split; [reflexivity|]. split; [reflexivity|].
  apply exited_is_final. cbn [heap]. rewrite Hget2. reflexivity.
Qed.

Lemma config_alter (f : MtpThread -> MtpThread) (l : list MtpThread)
      (i : nat) :
  (forall t, config (f t) = config t) ->
  config <$> alter f i l = config <$> l.
Proof.
  intros Hf. revert i. induction l as [|z l IH]; intros [|i]; simpl;
    try reflexivity.
  - now rewrite Hf.
  - f_equal. apply IH.
Qed.

Lemma step_config (w w' : World) (a : Action) :
  step w a w' ->
  config <$> heap w' =
    (config <$> heap w) ++
    match a with
    | native_setup javaDatabase storagePath =>
        [(getMtpDatabase javaDatabase, storagePath)]
    | _ => []
    end.
Proof.
  intros Hstep. pose proof (step_world _ _ _ Hstep) as Hw.
  destruct a as [db path| | | |this fd|this].
  - subst w'. cbn [heap]. rewrite fmap_app. reflexivity.
  - subst w'. cbn [heap]. now rewrite app_nil_r.
  - destruct Hw as (this & self & _ & Hget & _ & ->). cbn [heap].
    rewrite app_nil_r. unfold launched.
    destruct (worker self); try reflexivity.
    now apply (fmap_insert_same config _ _ self).
  - rewrite app_nil_r.
    destruct Hw as [[_ ->] | (this & self & _ & Hget & _ & ->)];
      cbn [heap]; [reflexivity|].
    now apply (fmap_insert_same config _ _ self).
  - rewrite app_nil_r.
    destruct Hw as (self & _ & _ & [[_ ->] | (_ & _ & ->)]); cbn [heap];
      now apply config_alter.
  - rewrite app_nil_r.
    destruct Hw as (self & fd & server & Hget & _ & _ & ->). cbn [heap].
    rewrite config_alter by reflexivity. unfold after_check.
    destruct (mDone self); [|reflexivity].
    now apply (fmap_insert_same config _ _ self).
Qed.

(** X6: a handle holds for its whole life what [setup] captured.  In
    every world the program reaches, the handles are, in order, those of
    the [setup] calls of the history, each with the database pointer
    looked up for, and the path given to, its own call; no other call
    and no worker step creates a handle or changes those two members. *)
Theorem handles_keep_setup_arguments (h : list Action) (w : World) :
  steps initial h w ->
  config <$> heap w =
    (fun a : jobject * string => (getMtpDatabase (fst a), snd a))
      <$> setups h.
Proof.
  intros Hsteps. remember initial as w0 eqn:Hw0.
  induction Hsteps as [w|w h w' a w'' Hsteps IH Hstep]; subst.
  - reflexivity.
  - rewrite (step_config _ _ _ Hstep), (IH eq_refl).
    destruct a; cbn [setups]; rewrite ?app_nil_r, ?fmap_app; reflexivity.
Qed.

Lemma count_insert_same {A} (p : A -> bool) (l : list A) (i : nat)
      (x y : A) :
  l !! i = Some x -> p y = p x -> count p (<[i := y]> l) = count p l.
Proof.
  intros Hget Hp. pose proof (count_insert p l i x y Hget) as Hc.
  rewrite Hp in Hc. lia.
Qed.

Lemma count_insert_gain {A} (p : A -> bool) (l : list A) (i : nat)
      (x y : A) :
  l !! i = Some x -> p x = false -> p y = true ->
  count p (<[i := y]> l) = S (count p l).
Proof.
  intros Hget Hx Hy. pose proof (count_insert p l i x y Hget) as Hc.
  rewrite Hx, Hy in Hc. lia.
Qed.

Lemma count_insert_loss {A} (p : A -> bool) (l : list A) (i : nat)
      (x y : A) :
  l !! i = Some x -> p x = true -> p y = false ->
  S (count p (<[i := y]> l)) = count p l.
Proof.
  intros Hget Hx Hy. pose proof (count_insert p l i x y Hget) as Hc.
  rewrite Hx, Hy in Hc. lia.
Qed.

Ltac in_run_of H := unfold in_run; cbn [worker set_worker set_mDone
                                        set_deleted]; rewrite ?H; reflexivity.

Ltac held_of H := unfold held_by; cbn [worker set_worker set_mDone
                                       set_deleted]; rewrite ?H; reflexivity.

(** ** Descriptors held in a heap, obtained and given back in a trace *)

Lemma held_insert (l : list MtpThread) (i : nat) (x y : MtpThread) :
  l !! i = Some x ->
  Permutation (held_by y ++ held l) (held_by x ++ held (<[i := y]> l)).
Proof.
  revert i. induction l as [|z l IH]; intros [|i] Hget; try discriminate.
  - injection Hget as ->. simpl. apply Permutation_app_swap_app.
  - simpl in Hget. simpl.
    change (list_insert i y l) with (<[i := y]> l).
    rewrite (Permutation_app_swap_app (held_by y)), (IH i Hget).
    apply Permutation_app_swap_app.
Qed.

Lemma held_insert_same (l : list MtpThread) (i : nat) (x y : MtpThread) :
  l !! i = Some x -> held_by y = held_by x -> held (<[i := y]> l) = held l.
Proof.
  revert i. induction l as [|z l IH]; intros [|i] Hget Hy; try discriminate.
  - injection Hget as ->. simpl. now rewrite Hy.
  - simpl in Hget. simpl. f_equal. now apply IH.
Qed.

Lemma held_gain (l : list MtpThread) (i : nat) (x y : MtpThread) (fd : Z) :
  l !! i = Some x -> held_by x = [] -> held_by y = [fd] ->
  Permutation (held (<[i := y]> l)) (fd :: held l).
Proof.
  intros Hget Hx Hy. pose proof (held_insert l i x y Hget) as Hp.
  rewrite Hx, Hy in Hp. symmetry. exact Hp.
Qed.

Lemma held_loss (l : list MtpThread) (i : nat) (x y : MtpThread) (fd : Z) :
  l !! i = Some x -> held_by x = [fd] -> held_by y = [] ->
  Permutation (held l) (fd :: held (<[i := y]> l)).
Proof.
  intros Hget Hx Hy. pose proof (held_insert l i x y Hget) as Hp.
  rewrite Hx, Hy in Hp. exact Hp.
Qed.

Lemma held_In (l : list MtpThread) (i : nat) (x : MtpThread) (fd : Z) :
  l !! i = Some x -> held_by x = [fd] -> In fd (held l).
Proof.
  intros Hget Hx. apply in_flat_map. exists x. split.
  - apply list_elem_of_In. eapply list_elem_of_lookup_2. exact Hget.
  - rewrite Hx. now left.
Qed.

(** The heap after a worker returned from [run]: its descriptor is no
    longer held. *)
Lemma held_after_return (l : list MtpThread) (this : nat) (self : MtpThread)
      (fd : Z) (server : MtpServer) :
  l !! this = Some self -> worker self = InRun fd server ->
  Permutation
    (held l)
    (fd :: held (alter (set_worker (if mDone self then Exited
                                    else Scheduled))
                       this (after_check this self l))).
Proof.
  intros Hget Hws.
  assert (Hget1 : after_check this self l !! this
                  = Some (if mDone self then set_deleted self else self)).
  { unfold after_check. destruct (mDone self); [|exact Hget].
    rewrite (lookup_insert_object _ _ _ _ _ Hget).
    destruct (decide (this = this)); [reflexivity|congruence]. }
  assert (Hheld1 : held (after_check this self l) = held l).
  { unfold after_check. destruct (mDone self); [|reflexivity].
    apply (held_insert_same _ _ self); [exact Hget | reflexivity]. }
  rewrite (alter_as_insert _ _ _ _ Hget1), <- Hheld1.
  apply (held_loss _ _ _ _ fd Hget1); destruct (mDone self); held_of Hws.
Qed.

Ltac trace_events :=
  cbn [heap effects]; unfold opened, closed; rewrite ?flat_map_app, ?count_app;
  cbn [flat_map opened_by closed_by count start_log stop_log setup_log
       open_failed_events session_start_events session_end_events
       is_new_MtpServer is_delete_MtpServer app];
  rewrite ?app_nil_r, ?Nat.add_0_r.

Lemma step_session_change (w w' : World) (a : Action) :
  step w a w' -> session_change w w'.
Proof.
  intros Hstep. pose proof (step_world _ _ _ Hstep) as Hw.
  destruct a as [db path| | | |this fd|this].
  - subst w'. apply session_same; trace_events; try reflexivity.
    unfold held. rewrite flat_map_app. cbn. now rewrite app_nil_r.
  - subst w'. apply session_same; trace_events; reflexivity.
  - destruct Hw as (this & self & _ & Hget & _ & ->).
    apply session_same; trace_events; try reflexivity;
      unfold launched; destruct (worker self) eqn:Hws; try reflexivity.
    + apply (held_insert_same _ _ self); [exact Hget | held_of Hws].
    + apply (count_insert_same _ _ _ self); [exact Hget | in_run_of Hws].
  - destruct Hw as [[_ ->] | (this & self & _ & Hget & _ & ->)];
      apply session_same; trace_events; try reflexivity.
    + apply (held_insert_same _ _ self); [exact Hget | reflexivity].
    + apply (count_insert_same _ _ _ self); [exact Hget | reflexivity].
  - destruct Hw as (self & Hget & Hws & [[Hneg ->] | (Hpos & _ & ->)]).
    + apply session_same; trace_events; try reflexivity;
        rewrite ?(alter_as_insert _ _ _ _ Hget).
      * apply (held_insert_same _ _ self); [exact Hget | held_of Hws].
      * apply (count_insert_same _ _ _ self); [exact Hget | in_run_of Hws].
      * destruct (Z.leb_spec 0 fd); [lia|]. now rewrite app_nil_r.
    + apply (session_begun _ _ fd); trace_events; try reflexivity;
        rewrite ?(alter_as_insert _ _ _ _ Hget).
      * apply (held_gain _ _ self); [exact Hget | held_of Hws | reflexivity].
      * apply (count_insert_gain _ _ _ self);
          [exact Hget | in_run_of Hws | reflexivity].
      * destruct (Z.leb_spec 0 fd); [reflexivity|lia].
      * lia.
  - destruct Hw as (self & fd & server & Hget & Hws & _ & ->).
    assert (Hget1 : after_check this self (heap w) !! this
                    = Some (if mDone self then set_deleted self else self)).
    { unfold after_check. destruct (mDone self); [|exact Hget].
      rewrite (lookup_insert_object _ _ _ _ _ Hget).
      destruct (decide (this = this)); [reflexivity|congruence]. }
    assert (Hcount1 : count in_run (after_check this self (heap w))
                      = count in_run (heap w)).
    { unfold after_check. destruct (mDone self); [|reflexivity].
      apply (count_insert_same _ _ _ self); [exact Hget | reflexivity]. }
    apply (session_ended _ _ fd); trace_events; try reflexivity.
    + exact (held_after_return _ _ _ _ _ Hget Hws).
    + rewrite (alter_as_insert _ _ _ _ Hget1), <- Hcount1.
      apply (count_insert_loss _ _ _ _ _ Hget1);
        destruct (mDone self); in_run_of Hws.
    + lia.
Qed.

Lemma step_balanced (w w' : World) (a : Action) :
  step w a w' -> balanced w -> balanced w'.
Proof.
  intros Hstep [Hfd Hsrv]. unfold balanced.
  destruct (step_session_change _ _ _ Hstep)
    as [Hh Hc Ho Hcl Hn Hd | fd Hh Hc Ho Hcl Hn Hd | fd Hh Hc Ho Hcl Hn Hd];
    rewrite Ho, Hcl, Hn, Hd, ?Hc.
  - rewrite Hh. split; [exact Hfd | exact Hsrv].
  - split; [|lia]. rewrite Hh, Hfd.
    rewrite <- Permutation_cons_append. apply Permutation_middle.
  - split; [|lia]. rewrite Hfd, Hh, <- app_assoc. reflexivity.
Qed.

(** X7: every descriptor is given back, once.  In every world the program
    reaches, the descriptors that [open] returned so far are, counted with
    repetitions, exactly the descriptors given to [close] so far together
    with those held by the workers inside [run]; and as many servers were
    constructed as were destroyed, plus one for each worker inside [run]. *)
Theorem descriptors_and_servers_balance (h : list Action) (w : World) :
  steps initial h w ->
  Permutation (opened (effects w))
              (closed (effects w) ++ held (heap w)) /\
  count is_new_MtpServer (effects w) =
    (count is_delete_MtpServer (effects w) + count in_run (heap w))%nat.
Proof.
  intros Hsteps. change (balanced w). remember initial as w0 eqn:Hw0.
  induction Hsteps as [w|w h w' a w'' Hsteps IH Hstep]; subst.
  - split; reflexivity.
  - eapply step_balanced; eauto.
Qed.

Lemma lookup_insert_cases (l : list MtpThread) (this i : nat)
      (x t' : MtpThread) :
  <[this := x]> l !! i = Some t' ->
  (i = this /\ t' = x) \/ (i <> this /\ l !! i = Some t').
Proof.
  intros Hget. apply list_lookup_insert_Some in Hget.
  destruct Hget as [(-> & -> & _) | (Hne & Hget)]; [left|right]; auto.
Qed.

Lemma step_runs_ok (w w' : World) (a : Action) :
  step w a w' -> runs_ok w -> runs_ok w'.
Proof.
  intros Hstep Hinv i t' fd0 server0 Hget' Hw'.
  pose proof (step_world _ _ _ Hstep) as Hw.
  destruct a as [db path| | | |this fd|this].
  - subst w'. cbn [heap] in Hget'. apply lookup_app_Some in Hget'.
    destruct Hget' as [Hget'|[_ Hget']]; [eauto|].
    destruct (i - length (heap w))%nat; [|discriminate].
    injection Hget' as <-. discriminate.
  - subst w'. eauto.
  - destruct Hw as (this & self & _ & Hget & _ & ->).
    cbn [heap] in Hget'. unfold launched in Hget'.
    destruct (worker self); eauto.
    apply lookup_insert_cases in Hget'.
    destruct Hget' as [[-> ->]|[_ Hget']]; [discriminate|eauto].
  - destruct Hw as [[_ ->] | (this & self & _ & Hget & _ & ->)];
      cbn [heap] in Hget'; [eauto|].
    apply lookup_insert_cases in Hget'.
    destruct Hget' as [[-> ->]|[_ Hget']]; [|eauto].
    exact (Hinv this self fd0 server0 Hget Hw').
  - destruct Hw as (self & Hget & Hws & [[Hneg ->] | (Hpos & _ & ->)]);
      cbn [heap] in Hget'; rewrite (alter_as_insert _ _ _ _ Hget) in Hget';
      apply lookup_insert_cases in Hget';
      destruct Hget' as [[-> ->]|[_ Hget']]; eauto.
    + discriminate.
    + cbn [worker set_worker] in Hw'. injection Hw' as <- <-.
      split; [exact Hpos|reflexivity].
  - destruct Hw as (self & fd & server & Hget & Hws & _ & ->).
    cbn [heap] in Hget'.
    destruct (decide (i = this)) as [->|Hne].
    + rewrite list_lookup_alter_eq in Hget'.
      destruct (after_check this self (heap w) !! this) as [t1|];
        [|discriminate].
      injection Hget' as <-. cbn [worker set_worker] in Hw'.
      destruct (mDone self); discriminate.
    + rewrite list_lookup_alter_ne in Hget' by congruence.
      unfold after_check in Hget'. destruct (mDone self); [|eauto].
      apply lookup_insert_cases in Hget'.
      destruct Hget' as [[-> _]|[_ Hget']]; [congruence|eauto].
Qed.

(** ** Replaying a trace *)

Lemma replay_app (open : list Z) (l k : list Event) :
  replay open (l ++ k) =
    match replay open l with
    | Some open' => replay open' k
    | None => None
    end.
Proof.
  revert open. induction l as [|e l IH]; intros open; [reflexivity|].
  destruct e as [| | | | args | | | | |]; simpl; try apply IH.
  - destruct args as [|[fd|db|n] args]; try reflexivity.
    destruct (existsb (Z.eqb fd) open); [apply IH | reflexivity].
  - destruct (take_out fd open); [apply IH | reflexivity].
Qed.

Lemma take_out_In (fd : Z) (open : list Z) :
  In fd open -> exists open', take_out fd open = Some open'.
Proof.
  induction open as [|x open IH]; intros Hin; [contradiction|].
  simpl. destruct (Z.eqb_spec x fd) as [|Hne]; [eauto|].
  destruct Hin as [|Hin]; [contradiction|].
  destruct (IH Hin) as [open' ->]. eauto.
Qed.

Lemma take_out_perm (fd : Z) (open open' : list Z) :
  take_out fd open = Some open' -> Permutation open (fd :: open').
Proof.
  revert open'. induction open as [|x open IH]; intros open' Hout;
    [discriminate|].
  simpl in Hout. destruct (Z.eqb_spec x fd) as [->|Hne].
  - injection Hout as <-. reflexivity.
  - destruct (take_out fd open) as [rest|]; [|discriminate].
    injection Hout as <-. rewrite (IH rest eq_refl). apply perm_swap.
Qed.

Ltac replay_events :=
  cbn [heap effects]; rewrite replay_app;
  match goal with H : replay _ _ = Some _ |- _ => rewrite H end;
  cbn [replay start_log stop_log setup_log open_failed_events
       session_start_events session_end_events server_args].

Lemma step_replays (w w' : World) (a : Action) :
  step w a w' -> replays w -> replays w'.
Proof.
  intros Hstep (open & Hrep & Hperm).
  pose proof (step_world _ _ _ Hstep) as Hw. unfold replays.
  destruct a as [db path| | | |this fd|this].
  - subst w'. exists open. split; [replay_events; reflexivity|].
    cbn [heap]. unfold held. rewrite flat_map_app. cbn.
    rewrite app_nil_r. exact Hperm.
  - subst w'. exists open. split; [replay_events; reflexivity|exact Hperm].
  - destruct Hw as (this & self & _ & Hget & _ & ->). exists open.
    split; [replay_events; reflexivity|]. cbn [heap].
    unfold launched. destruct (worker self) eqn:Hws; try exact Hperm.
    rewrite (held_insert_same _ _ self); [exact Hperm|exact Hget|held_of Hws].
  - destruct Hw as [[_ ->] | (this & self & _ & Hget & _ & ->)];
      exists open; (split; [replay_events; reflexivity|]); cbn [heap];
      [exact Hperm|].
    rewrite (held_insert_same _ _ self); [exact Hperm|exact Hget|reflexivity].
  - destruct Hw as (self & Hget & Hws & [[Hneg ->] | (Hpos & _ & ->)]).
    + exists open. split.
      * replay_events. destruct (Z.leb_spec 0 fd); [lia|reflexivity].
      * cbn [heap]. rewrite (alter_as_insert _ _ _ _ Hget).
        rewrite (held_insert_same _ _ self);
          [exact Hperm|exact Hget|held_of Hws].
    + exists (fd :: open). split.
      * replay_events. destruct (Z.leb_spec 0 fd); [|lia].
        cbn [existsb]. rewrite Z.eqb_refl. reflexivity.
      * cbn [heap]. rewrite (alter_as_insert _ _ _ _ Hget).
        rewrite (held_gain _ _ self _ fd Hget); [|held_of Hws|reflexivity].
        now rewrite Hperm.
  - destruct Hw as (self & fd & server & Hget & Hws & _ & ->).
    assert (Hin : In fd open).
    { apply (Permutation_in fd (Permutation_sym Hperm)).
      apply (held_In _ this self); [exact Hget | held_of Hws]. }
    destruct (take_out_In fd open Hin) as [open' Hout].
    exists open'. split.
    + replay_events. rewrite Hout. reflexivity.
    + cbn [heap]. apply (Permutation_cons_inv (a := fd)).
      rewrite <- (take_out_perm _ _ _ Hout), Hperm.
      exact (held_after_return _ _ _ _ _ Hget Hws).
Qed.

(** ** What servers are constructed from *)

Lemma step_keeps_database (w w' : World) (a : Action) (i : nat)
      (t : MtpThread) :
  step w a w' -> heap w !! i = Some t ->
  exists t', heap w' !! i = Some t' /\ mDatabase t' = mDatabase t.
Proof.
  intros Hstep Hget.
  destruct (step_change _ _ _ _ _ Hstep Hget) as (t' & Hget' & Hch).
  exists t'. split; [exact Hget'|]. destruct Hch; reflexivity.
Qed.

Lemma step_constructed_ok (w w' : World) (a : Action) :
  step w a w' ->
  Forall (constructed_ok w) (effects w) ->
  Forall (constructed_ok w') (effects w').
Proof.
  intros Hstep Hev.
  assert (Hold : Forall (constructed_ok w') (effects w)).
  { eapply Forall_impl; [exact Hev|]. intros e He.
    destruct e; try exact I.
    destruct He as (i & t & fd & Hget & Hfd & ->).
    destruct (step_keeps_database _ _ _ _ _ Hstep Hget) as (t' & Hget' & E).
    exists i, t', fd. rewrite E. auto. }
  pose proof (step_world _ _ _ Hstep) as Hw.
  destruct a as [db path| | | |this fd|this].
  - rewrite Hw at 2. apply Forall_app. split; [exact Hold|].
    repeat (constructor; try exact I).
  - rewrite Hw at 2. apply Forall_app. split; [exact Hold|].
    repeat (constructor; try exact I).
  - destruct Hw as (this & self & _ & _ & _ & Hw). rewrite Hw at 2.
    apply Forall_app. split; [exact Hold|].
    repeat (constructor; try exact I).
  - destruct Hw as [[_ Hw] | (this & self & _ & _ & _ & Hw)];
      rewrite Hw at 2; (apply Forall_app; split; [exact Hold|]);
      repeat (constructor; try exact I).
  - destruct Hw as (self & Hget & Hws & [[Hneg Hw] | (Hpos & _ & Hw)]);
      rewrite Hw at 2; (apply Forall_app; split; [exact Hold|]).
    + repeat (constructor; try exact I).
    + destruct (step_keeps_database _ _ _ _ _ Hstep Hget)
        as (t' & Hget' & E).
      unfold session_start_events. repeat (constructor; try exact I).
      exists this, t', fd. rewrite E. auto.
  - destruct Hw as (self & fd & server & _ & _ & _ & Hw). rewrite Hw at 2.
    apply Forall_app. split; [exact Hold|].
    repeat (constructor; try exact I).
Qed.

(** X8: no call is made on a descriptor that is not open.  In every world
    the program reaches, the trace replays from no open descriptor: each
    [close] is given a descriptor that [open] returned and that was not
    closed since, each server is constructed on such a descriptor, and the
    descriptors still open at the end are exactly those held by the
    workers inside [run].  Each server was constructed with the database
    pointer of a handle, [AID_SDCARD_RW], [0664] and [0775]; and each
    worker inside [run] holds a descriptor that [open] returned and the
    server built from its own handle. *)
Theorem descriptors_are_valid (h : list Action) (w : World) :
  steps initial h w ->
  (exists open,
     replay [] (effects w) = Some open /\
     Permutation open (held (heap w))) /\
  Forall (constructed_ok w) (effects w) /\
  (forall i t fd server,
     heap w !! i = Some t -> worker t = InRun fd server ->
     0 <= fd /\ server = server_of fd t).
Proof.
  intros Hsteps.
  change (replays w /\ Forall (constructed_ok w) (effects w) /\ runs_ok w).
  remember initial as w0 eqn:Hw0.
  induction Hsteps as [w|w h w' a w'' Hsteps IH Hstep]; subst.
  - split; [exists []; split; reflexivity|]. split; [constructor|].
    intros i t fd server Hget. discriminate Hget.
  - destruct (IH eq_refl) as (Hrep & Hev & Hinv). split; [|split].
    + eapply step_replays; eauto.
    + eapply step_constructed_ok; eauto.
    + eapply step_runs_ok; eauto.
Qed.

Lemma step_keeps_unstarted (w w' : World) (a : Action) (i : nat)
      (t : MtpThread) :
  step w a w' ->
  heap w !! i = Some t -> mNativeContext w <> ptr_of i ->
  worker t = NotStarted ->
  exists t', heap w' !! i = Some t' /\ mNativeContext w' <> ptr_of i /\
             worker t' = NotStarted /\
             mDone t' = mDone t /\ deleted t' = deleted t.
Proof.
  intros Hstep Hget Hslot Hw.
  assert (Hslot' : mNativeContext w' <> ptr_of i).
  { rewrite (step_slot _ _ _ Hstep). apply lookup_lt_Some in Hget.
    destruct a; try exact Hslot; unfold ptr_of; lia. }
  pose proof (step_world _ _ _ Hstep) as Hworld.
  exists t. split; [|repeat split; assumption].
  destruct a as [db path| | | |this fd|this].
  - subst w'. cbn [heap]. now apply lookup_app_l_Some.
  - subst w'. exact Hget.
  - destruct Hworld as (this & self & Hp & _ & _ & ->). cbn [heap].
    unfold launched. destruct (worker self); try exact Hget.
    rewrite list_lookup_insert_ne; [exact Hget|congruence].
  - destruct Hworld as [[_ ->] | (this & self & Hp & _ & _ & ->)];
      cbn [heap]; [exact Hget|].
    rewrite list_lookup_insert_ne; [exact Hget|congruence].
  - destruct Hworld as (self & Hself & Hws & [[_ ->] | (_ & _ & ->)]);
      cbn [heap]; (rewrite list_lookup_alter_ne; [exact Hget|congruence]).
  - destruct Hworld as (self & fd & server & Hself & Hws & _ & ->).
    cbn [heap]. assert (this <> i) by congruence.
    rewrite list_lookup_alter_ne by assumption.
    unfold after_check. destruct (mDone self); [|exact Hget].
    rewrite list_lookup_insert_ne; [exact Hget|assumption].
Qed.

Lemma steps_keep_unstarted (w w' : World) (h : list Action) (i : nat)
      (t : MtpThread) :
  steps w h w' ->
  heap w !! i = Some t -> mNativeContext w <> ptr_of i ->
  worker t = NotStarted ->
  exists t', heap w' !! i = Some t' /\ mNativeContext w' <> ptr_of i /\
             worker t' = NotStarted /\
             mDone t' = mDone t /\ deleted t' = deleted t.
Proof.
  intros Hsteps Hget Hslot Hw.
  induction Hsteps as [w|w h w' a w'' Hsteps IH Hstep].
  - exists t. repeat split; assumption.
  - destruct (IH Hget Hslot) as (t1 & Hget1 & Hs1 & Hw1 & Hd1 & Hl1).
    destruct (step_keeps_unstarted _ _ _ _ _ Hstep Hget1 Hs1 Hw1)
      as (t2 & Hget2 & Hs2 & Hw2 & Hd2 & Hl2).
    exists t2. repeat split; try assumption; congruence.
Qed.

(** X10: a [stop] before [start] loses the handle.  If the slot refers to
    a handle whose worker was never started, [stop] sets its flag and
    clears the slot; a [start] right after follows the null pointer; and
    whatever follows, no worker is ever started for the handle and it is
    never deleted. *)
Theorem stop_before_start_leaks
    (w w1 w2 : World) (h : list Action) (i : nat) (t : MtpThread) :
  mNativeContext w = ptr_of i ->
  heap w !! i = Some t -> deleted t = false -> worker t = NotStarted ->
  android_media_MtpServer_stop w = Ok (tt, w1) ->
  steps w1 h w2 ->
  android_media_MtpServer_start w1 = Fault NullPointer /\
  exists t', heap w2 !! i = Some t' /\
             mDone t' = true /\ worker t' = NotStarted /\
             deleted t' = false /\ mNativeContext w2 <> ptr_of i.
Proof.
  intros Hslot Hget Hlive Hw Hstop Hsteps.
  rewrite (stop_live w i t Hslot Hget Hlive) in Hstop.
  injection Hstop as <-.
  split; [apply start_null; reflexivity|].
  destruct (steps_keep_unstarted _ _ _ i (set_mDone true t) Hsteps)
    as (t' & Hget' & Hs' & Hw' & Hd' & Hl').
  - cbn [heap]. rewrite (lookup_insert_object _ _ _ _ _ Hget).
    destruct (decide (i = i)); [reflexivity|congruence].
  - cbn [mNativeContext]. unfold ptr_of. lia.
  - exact Hw.
  - exists t'. repeat split; try assumption.
    rewrite Hl'. exact Hlive.
Qed.

End MtpServerJNI.

(** ** The theorems at work on the session *)

(** The sample session is what the program does, call by call. *)
Lemma session_replays :
  android_media_MtpServer_setup Session.database_of 7 "/sdcard" initial
    = Ok (tt, Session.created) /\
  android_media_MtpServer_start Session.created = Ok (tt, Session.started) /\
  threadLoop_to_run Session.gid 0 3 Session.started
    = Ok (Some Session.the_server, Session.entered) /\
  worker_begin Session.gid 0 3 Session.started = Ok (tt, Session.running) /\
  android_media_MtpServer_stop Session.running = Ok (tt, Session.stopping) /\
  worker_end 0 3 Session.the_server Session.stopping
    = Ok (tt, Session.stopped) /\
  android_media_MtpServer_setup Session.database_of 8 "/mnt/sdcard2"
                                Session.stopped
    = Ok (tt, Session.set_up_again) /\
  android_media_MtpServer_stop Session.entered
    = Ok (tt, Session.asked_to_stop) /\
  worker_begin Session.gid 0 (-1) Session.started
    = Ok (tt, Session.gave_up).
Proof. repeat split. Qed.

Lemma open_failure_builds_no_server_witness :
  -1 < 0 /\
  exists w',
    threadLoop Session.gid 0 (-1) android_media_MtpServer_stop
               Session.started = Ok (false, w') /\
    heap w' = heap Session.started.
Proof.
  split; [lia|].
  destruct (open_failure_builds_no_server Session.gid Session.database_of
              0 (-1) android_media_MtpServer_stop Session.started)
    as (w' & Hrun & _ & Hheap & _); [lia|].
  exists w'. split; [exact Hrun | exact Hheap].
Defined.

(** C2, as the claim states it, fails: on the started session with [open]
    returning -1, [threadLoop] returns [false], not the value [true] that
    asks for another iteration. *)
Lemma open_failure_reschedules_counterexample :
  threadLoop Session.gid 0 (-1) (ret tt) Session.started =
    Ok (false,
        {| heap := heap Session.started;
           mNativeContext := 1;
           effects := effects Session.started ++
             [sys_open "/dev/mtp_usb" O_RDWR (-1);
              printf ("open returned %d" +:+ nl) (-1);
              LOGE ("could not open MTP driver" +:+ nl)] |}) /\
  ~ (exists w', threadLoop Session.gid 0 (-1) (ret tt) Session.started =
                  Ok (true, w')).
Proof.
  split; [reflexivity|]. intros [w' Hrun]. discriminate Hrun.
Qed.

Lemma open_failure_returns_false_witness :
  -1 < 0 /\
  forall w', step Session.gid Session.database_of Session.started
                  (worker_opens 0 (-1)) w' ->
             worker <$> heap w' !! 0%nat = Some Exited.
Proof.
  split; [lia|].
  apply (open_failure_returns_false Session.gid Session.database_of
           0 (-1) (ret tt) Session.started).
  lia.
Defined.

Lemma completed_run_checks_flag_witness :
  (threadLoop_to_run Session.gid 0 3 Session.started =
     Ok (Some Session.the_server, Session.entered) /\
   android_media_MtpServer_stop Session.entered =
     Ok (tt, Session.asked_to_stop) /\
   heap Session.asked_to_stop !! 0%nat =
     Some (set_worker Scheduled (set_mDone true Session.handle))) /\
  exists w3,
    threadLoop Session.gid 0 3 android_media_MtpServer_stop Session.started
      = Ok (false, w3) /\
    deleted <$> heap w3 !! 0%nat = Some true.
Proof.
  split; [repeat split|].
  destruct (completed_run_checks_flag Session.gid 0 3
              android_media_MtpServer_stop
              Session.started Session.entered Session.asked_to_stop
              Session.the_server
              (set_worker Scheduled (set_mDone true Session.handle)))
    as (w3 & w4 & Hrun & _ & _ & Hdel & _);
    [reflexivity | reflexivity | reflexivity | reflexivity |].
  exists w3. split; [exact Hrun|]. apply Hdel. reflexivity.
Defined.

(** C8, as the claim states it, fails: the server of the session is
    constructed with five arguments, and no choice of a user id, group id
    and two modes makes them the six of the claim. *)
Lemma server_has_six_parameters_counterexample :
  threadLoop_to_run Session.gid 0 3 Session.started =
    Ok (Some Session.the_server, Session.entered) /\
  filter (fun e => is_new_MtpServer e = true)
         (emitted Session.started Session.entered) =
    [new_MtpServer
       [AFd 3; ADatabase 4103; AInt 1015; AInt 436; AInt 509]] /\
  ~ (exists uid gid fmode dmode,
       srv_args Session.the_server =
         [AFd 3; ADatabase 4103;
          AInt uid; AInt gid; AInt fmode; AInt dmode]).
Proof.
  split; [reflexivity|]. split; [reflexivity|].
  intros (uid & gid & fmode & dmode & Hargs). discriminate Hargs.
Qed.

Lemma server_constructed_with_five_arguments_witness :
  (0 <= 3 /\
   heap Session.started !! 0%nat =
     Some (set_worker Scheduled Session.handle)) /\
  exists server w',
    threadLoop_to_run Session.gid 0 3 Session.started = Ok (Some server, w') /\
    srv_args server =
      [AFd 3; ADatabase 4103; AInt Session.gid; AInt 436; AInt 509].
Proof.
  split; [split; [lia|reflexivity]|].
  destruct (server_constructed_with_five_arguments Session.gid 0 3
              Session.started (set_worker Scheduled Session.handle))
    as (server & w' & Hrun & Hargs & _);
    [lia | reflexivity | reflexivity |].
  exists server, w'. split; [exact Hrun | exact Hargs].
Defined.

(** The end of the session as steps: [run] returns to a worker whose
    handle was stopped, then the controller sets up a new handle. *)
Lemma session_end_steps :
  steps Session.gid Session.database_of Session.stopping
        [native_setup 8 "/mnt/sdcard2"; worker_returns 0]
        Session.set_up_again.
Proof.
  eapply steps_cons; [eapply steps_cons; [apply steps_nil|]|].
  - eapply step_returns; reflexivity.
  - eapply step_setup; reflexivity.
Defined.

Lemma completion_flag_is_monotone_witness :
  (heap Session.stopping !! 0%nat =
     Some (set_mDone true
             (set_worker (InRun 3 Session.the_server) Session.handle)) /\
   steps Session.gid Session.database_of Session.stopping
         [native_setup 8 "/mnt/sdcard2"; worker_returns 0]
         Session.set_up_again) /\
  exists t', heap Session.set_up_again !! 0%nat = Some t' /\ mDone t' = true.
Proof.
  split; [split; [reflexivity | exact session_end_steps]|].
  destruct (completion_flag_is_monotone Session.gid Session.database_of)
    as (_ & _ & _ & Hmono).
  apply (Hmono Session.stopping
               [native_setup 8 "/mnt/sdcard2"; worker_returns 0]
               Session.set_up_again 0%nat
               (set_mDone true
                  (set_worker (InRun 3 Session.the_server) Session.handle))).
  - exact session_end_steps.
  - reflexivity.
  - reflexivity.
Defined.

Lemma stop_sets_flag_and_clears_slot_witness :
  (mNativeContext Session.running = ptr_of 0 /\
   heap Session.running !! 0%nat =
     Some (set_worker (InRun 3 Session.the_server) Session.handle)) /\
  android_media_MtpServer_stop Session.running = Ok (tt, Session.stopping) /\
  mDone <$> heap Session.stopping !! 0%nat = Some true /\
  mNativeContext Session.stopping = 0.
Proof.
  split; [split; reflexivity|].
  destruct (stop_sets_flag_and_clears_slot Session.running 0
              (set_worker (InRun 3 Session.the_server) Session.handle))
    as (_ & w' & Hrun & _ & Hdone & _ & _ & Hslot & _);
    [reflexivity | reflexivity | reflexivity |].
  assert (E : w' = Session.stopping).
  { assert (H : android_media_MtpServer_stop Session.running
                = Ok (tt, Session.stopping)) by reflexivity.
    rewrite H in Hrun. injection Hrun as <-. reflexivity. }
  subst w'. split; [exact Hrun|]. split; [exact Hdone | exact Hslot].
Defined.

(** C6, as the claim states it, fails: [stop] after [setup] and before
    [start] is no no-op.  On the session just set up it sets the flag of the
    handle and clears the slot, and a second [stop] can tell: it finds the
    slot null where the first found the handle, and a [start] that would
    have run now follows a null pointer. *)
Lemma stop_before_start_counterexample :
  android_media_MtpServer_setup Session.database_of 7 "/sdcard" initial
    = Ok (tt, Session.created) /\
  android_media_MtpServer_stop Session.created
    = Ok (tt, Orphan.stopped_early) /\
  heap Orphan.stopped_early <> heap Session.created /\
  mDone <$> heap Session.created !! 0%nat = Some false /\
  mDone <$> heap Orphan.stopped_early !! 0%nat = Some true /\
  mNativeContext Session.created = 1 /\
  mNativeContext Orphan.stopped_early = 0 /\
  android_media_MtpServer_start Session.created
    = Ok (tt, Session.started) /\
  android_media_MtpServer_start Orphan.stopped_early = Fault NullPointer.
Proof.
  repeat split. discriminate.
Qed.

Lemma stop_without_handle_is_noop_witness :
  (mNativeContext Session.stopping = 0 /\
   mNativeContext Session.created = ptr_of 0 /\
   heap Session.created !! 0%nat = Some Session.handle) /\
  (exists w',
     android_media_MtpServer_stop Session.stopping = Ok (tt, w') /\
     heap w' = heap Session.stopping /\
     mNativeContext w' = mNativeContext Session.stopping) /\
  (exists w',
     android_media_MtpServer_stop Session.created = Ok (tt, w') /\
     mDone <$> heap w' !! 0%nat = Some true /\
     mNativeContext w' = 0).
Proof.
  split; [repeat split|].
  destruct (stop_without_handle_is_noop Session.gid Session.database_of)
    as (_ & _ & Hnoop & _ & Hearly).
  split.
  - destruct (Hnoop Session.stopping) as (w' & _ & Hrun & Hheap & Hslot & _);
      [reflexivity|].
    exists w'. split; [exact Hrun|]. split; [exact Hheap | exact Hslot].
  - destruct (Hearly Session.created 0%nat Session.handle)
      as (w' & _ & Hrun & _ & Hdone & _ & Hslot & _);
      [reflexivity | reflexivity | reflexivity | reflexivity |].
    exists w'. split; [exact Hrun|]. split; [exact Hdone | exact Hslot].
Defined.

Lemma start_dereferences_unchecked_witness :
  (mNativeContext Session.stopping = 0 /\
   steps Session.gid Session.database_of initial
         [native_setup 7 "/sdcard"] Session.created) /\
  android_media_MtpServer_start Session.stopping = Fault NullPointer /\
  exists w', android_media_MtpServer_start Session.created = Ok (tt, w').
Proof.
  assert (Hsteps : steps Session.gid Session.database_of initial
                         [native_setup 7 "/sdcard"] Session.created).
  { eapply steps_cons; [apply steps_nil|]. eapply step_setup; reflexivity. }
  split; [split; [reflexivity | exact Hsteps]|].
  destruct (start_dereferences_unchecked Session.gid Session.database_of)
    as (Hnull & _ & _ & Hsafe).
  split.
  - apply (Hnull Session.stopping). reflexivity.
  - apply (Hsafe [native_setup 7 "/sdcard"] Session.created Hsteps).
    reflexivity.
Defined.

Lemma handle_released_only_after_flagged_run_witness :
  (-1 < 0 /\
   step Session.gid Session.database_of Session.started
        (worker_opens 0 (-1)) Session.gave_up /\
   heap Session.started !! 0%nat =
     Some (set_worker Scheduled Session.handle)) /\
  exists t', heap Session.gave_up !! 0%nat = Some t' /\
             deleted t' = false /\ worker t' = Exited.
Proof.
  assert (Hstep : step Session.gid Session.database_of Session.started
                       (worker_opens 0 (-1)) Session.gave_up).
  { eapply step_opens; reflexivity. }
  split; [split; [lia | split; [exact Hstep | reflexivity]]|].
  destruct (handle_released_only_after_flagged_run
              Session.gid Session.database_of) as (_ & _ & Hfail & _).
  apply (Hfail Session.started 0%nat (-1) Session.gave_up
               (set_worker Scheduled Session.handle)).
  - lia.
  - exact Hstep.
  - reflexivity.
Defined.

(** ** Registration *)

(** X9: the native methods are registered exactly when both lookups
    succeed.  If the class or its field is missing the function returns
    -1 and registers nothing (and without the class it does not touch
    [field_context]); otherwise it registers once, the four methods of
    [gMethods] under [android/media/MtpServer], returns what the runtime
    returned, and leaves [field_context] non-null. *)
Theorem register_needs_class_and_field
    (env : Registration.JNIEnv) (s : Registration.Statics) :
  let clazz := Registration.FindClass env "android/media/MtpServer" in
  let field := Registration.GetFieldID env clazz "mNativeContext" "I" in
  let r := fst (Registration.register_android_media_MtpServer env s) in
  let s' := snd (Registration.register_android_media_MtpServer env s) in
  (clazz = 0 ->
   r = -1 /\ Registration.registered s' = Registration.registered s /\
   Registration.field_context s' = Registration.field_context s) /\
  (clazz <> 0 /\ field = 0 ->
   r = -1 /\ Registration.registered s' = Registration.registered s /\
   Registration.field_context s' = 0) /\
  (clazz <> 0 /\ field <> 0 ->
   r = Registration.registerNativeMethods env "android/media/MtpServer"
         Registration.gMethods 4 /\
   Registration.registered s' =
     Registration.registered s ++
     [ {| Registration.reg_class := "android/media/MtpServer";
          Registration.reg_methods := Registration.gMethods;
          Registration.reg_count := 4 |} ] /\
   Registration.field_context s' = field) /\
  (Registration.registered s' <> Registration.registered s ->
   Registration.field_context s' <> 0).
Proof.
  cbv zeta. unfold Registration.register_android_media_MtpServer.
  destruct (Z.eqb_spec
              (Registration.FindClass env "android/media/MtpServer") 0)
    as [Hc|Hc].
  - cbn. repeat split; try tauto; try congruence.
  - cbn [Registration.field_context Registration.log
         Registration.registered Registration.logged].
    destruct (Z.eqb_spec
                (Registration.GetFieldID env
                   (Registration.FindClass env "android/media/MtpServer")
                   "mNativeContext" "I") 0) as [Hf|Hf].
    + cbn. repeat split; try tauto; try congruence.
    + cbn. repeat split; try tauto; try congruence.
Qed.

Lemma register_needs_class_and_field_witness :
  (Registration.FindClass Registration.env_without_field
     "android/media/MtpServer" <> 0 /\
   Registration.GetFieldID Registration.env_without_field 77
     "mNativeContext" "I" = 0) /\
  fst (Registration.register_android_media_MtpServer
         Registration.env_without_field Registration.fresh) = -1 /\
  Registration.registered
    (snd (Registration.register_android_media_MtpServer
            Registration.env_without_field Registration.fresh)) = [].
Proof.
  assert (H : Registration.FindClass Registration.env_without_field
                "android/media/MtpServer" <> 0 /\
              Registration.GetFieldID Registration.env_without_field 77
                "mNativeContext" "I" = 0).
  { split; [discriminate|reflexivity]. }
  split; [exact H|].
  destruct (register_needs_class_and_field
              Registration.env_without_field Registration.fresh)
    as (_ & Hfield & _ & _).
  destruct (Hfield H) as (Hr & Hreg & _).
  split; [exact Hr | exact Hreg].
Defined.

(** ** The session theorems at work *)

(** The whole sample session as one history. *)
Lemma session_history :
  steps Session.gid Session.database_of initial
        [native_setup 8 "/mnt/sdcard2"; worker_returns 0; native_stop;
         worker_opens 0 3; native_start; native_setup 7 "/sdcard"]
        Session.set_up_again.
Proof.
  eapply steps_cons with (w' := Session.stopped);
    [eapply steps_cons with (w' := Session.stopping);
     [eapply steps_cons with (w' := Session.running);
      [eapply steps_cons with (w' := Session.started);
       [eapply steps_cons with (w' := Session.created);
        [eapply steps_cons; [apply steps_nil|]|]|]|]|]|].
  - eapply step_setup; reflexivity.
  - eapply step_start; reflexivity.
  - eapply step_opens; reflexivity.
  - eapply step_stop; reflexivity.
  - eapply step_returns; reflexivity.
  - eapply step_setup; reflexivity.
Defined.

(** Its first two calls. *)
Lemma session_started :
  steps Session.gid Session.database_of initial
        [native_start; native_setup 7 "/sdcard"] Session.started.
Proof.
  eapply steps_cons with (w' := Session.created);
    [eapply steps_cons; [apply steps_nil|]|].
  - eapply step_setup; reflexivity.
  - eapply step_start; reflexivity.
Defined.

(** The second sample: how the first handle is orphaned, and what
    follows. *)
Lemma orphan_made :
  steps Session.gid Session.database_of initial
        [native_setup 8 "/mnt/sdcard2"; native_setup 7 "/sdcard"]
        Orphan.set_up_twice.
Proof.
  eapply steps_cons with (w' := Session.created);
    [eapply steps_cons; [apply steps_nil|]|].
  - eapply step_setup; reflexivity.
  - eapply step_setup; reflexivity.
Defined.

Lemma orphan_later :
  steps Session.gid Session.database_of Orphan.set_up_twice
        [native_setup 9 "/sdcard"; native_stop; native_start]
        Orphan.later.
Proof.
  eapply steps_cons;
    [eapply steps_cons; [eapply steps_cons; [apply steps_nil|]|]|].
  - eapply step_start. vm_compute. reflexivity.
  - eapply step_stop. vm_compute. reflexivity.
  - eapply step_setup. vm_compute. reflexivity.
Defined.

Lemma slot_never_dangles_witness :
  steps Session.gid Session.database_of initial
        [native_start; native_setup 7 "/sdcard"] Session.started /\
  exists w', android_media_MtpServer_stop Session.started = Ok (tt, w').
Proof.
  split; [exact session_started|].
  apply (slot_never_dangles Session.gid Session.database_of
           [native_start; native_setup 7 "/sdcard"] Session.started
           session_started).
Defined.

Lemma worker_steps_enabled_witness :
  (steps Session.gid Session.database_of initial
         [native_start; native_setup 7 "/sdcard"] Session.started /\
   heap Session.started !! 0%nat =
     Some (set_worker Scheduled Session.handle)) /\
  exists w', step Session.gid Session.database_of Session.started
                  (worker_opens 0 (-1)) w'.
Proof.
  split; [split; [exact session_started | reflexivity]|].
  destruct (worker_steps_enabled Session.gid Session.database_of
              [native_start; native_setup 7 "/sdcard"] Session.started
              0%nat (set_worker Scheduled Session.handle)
              session_started eq_refl) as [Hopen _].
  apply (Hopen eq_refl (-1)).
Defined.

Lemma only_stop_ends_a_session_witness :
  (steps Session.gid Session.database_of Session.created
         [worker_opens 0 3; native_start] Session.running /\
   ~ In native_stop [worker_opens 0 3; native_start] /\
   heap Session.created !! 0%nat = Some Session.handle) /\
  exists t', heap Session.running !! 0%nat = Some t' /\
             mDone t' = false /\ deleted t' = false.
Proof.
  assert (Hsteps : steps Session.gid Session.database_of Session.created
                         [worker_opens 0 3; native_start] Session.running).
  { eapply steps_cons with (w' := Session.started);
      [eapply steps_cons; [apply steps_nil|]|].
    - eapply step_start; reflexivity.
    - eapply step_opens; reflexivity. }
  assert (Hns : ~ In native_stop [worker_opens 0 3; native_start]).
  { intros [H|[H|[]]]; discriminate H. }
  split; [split; [exact Hsteps | split; [exact Hns | reflexivity]]|].
  apply (only_stop_ends_a_session Session.gid Session.database_of
           Session.created Session.running
           [worker_opens 0 3; native_start] 0%nat Session.handle
           Hsteps Hns eq_refl eq_refl).
Defined.

Lemma orphaned_handle_is_never_released_witness :
  (steps Session.gid Session.database_of initial
         [native_setup 8 "/mnt/sdcard2"; native_setup 7 "/sdcard"]
         Orphan.set_up_twice /\
   steps Session.gid Session.database_of Orphan.set_up_twice
         [native_setup 9 "/sdcard"; native_stop; native_start]
         Orphan.later /\
   heap Orphan.set_up_twice !! 0%nat = Some Orphan.first /\
   mNativeContext Orphan.set_up_twice <> ptr_of 0) /\
  exists t', heap Orphan.later !! 0%nat = Some t' /\
             mNativeContext Orphan.later <> ptr_of 0 /\
             mDone t' = false /\ deleted t' = false.
Proof.
  assert (Hslot : mNativeContext Orphan.set_up_twice <> ptr_of 0)
    by discriminate.
  split; [split; [exact orphan_made | split; [exact orphan_later |
          split; [reflexivity | exact Hslot]]]|].
  apply (orphaned_handle_is_never_released Session.gid Session.database_of
           Orphan.set_up_twice Orphan.later
           [native_setup 9 "/sdcard"; native_stop; native_start]
           0%nat Orphan.first orphan_later eq_refl Hslot eq_refl).
Defined.

Lemma stop_during_run_releases_witness :
  (mNativeContext Session.running = ptr_of 0 /\
   heap Session.running !! 0%nat =
     Some (set_worker (InRun 3 Session.the_server) Session.handle)) /\
  exists w1 w2 t,
    android_media_MtpServer_stop Session.running = Ok (tt, w1) /\
    step Session.gid Session.database_of w1 (worker_returns 0) w2 /\
    heap w2 !! 0%nat = Some t /\ deleted t = true /\ worker t = Exited.
Proof.
  split; [split; reflexivity|].
  destruct (stop_during_run_releases Session.gid Session.database_of
              Session.running 0%nat
              (set_worker (InRun 3 Session.the_server) Session.handle)
              3 Session.the_server eq_refl eq_refl eq_refl eq_refl)
    as (w1 & w2 & t & Hstop & Hstep & _ & Hget & Hdel & Hw & _).
  exists w1, w2, t. repeat split; assumption.
Defined.

Lemma handles_keep_setup_arguments_witness :
  steps Session.gid Session.database_of initial
        [native_setup 8 "/mnt/sdcard2"; worker_returns 0; native_stop;
         worker_opens 0 3; native_start; native_setup 7 "/sdcard"]
        Session.set_up_again /\
  config <$> heap Session.set_up_again =
    [(4103, "/sdcard"); (4104, "/mnt/sdcard2")].
Proof.
  split; [exact session_history|].
  apply (handles_keep_setup_arguments Session.gid Session.database_of
           _ _ session_history).
Defined.

Lemma descriptors_and_servers_balance_witness :
  steps Session.gid Session.database_of initial
        [native_setup 8 "/mnt/sdcard2"; worker_returns 0; native_stop;
         worker_opens 0 3; native_start; native_setup 7 "/sdcard"]
        Session.set_up_again /\
  Permutation (opened (effects Session.set_up_again))
              (closed (effects Session.set_up_again) ++
               held (heap Session.set_up_again)).
Proof.
  split; [exact session_history|].
  apply (descriptors_and_servers_balance Session.gid Session.database_of
           _ _ session_history).
Defined.

Lemma descriptors_are_valid_witness :
  steps Session.gid Session.database_of initial
        [native_setup 8 "/mnt/sdcard2"; worker_returns 0; native_stop;
         worker_opens 0 3; native_start; native_setup 7 "/sdcard"]
        Session.set_up_again /\
  exists open,
    replay [] (effects Session.set_up_again) = Some open /\
    Permutation open (held (heap Session.set_up_again)).
Proof.
  split; [exact session_history|].
  apply (descriptors_are_valid Session.gid Session.database_of
           _ _ session_history).
Defined.

Lemma stop_before_start_leaks_witness :
  (mNativeContext Session.created = ptr_of 0 /\
   heap Session.created !! 0%nat = Some Session.handle /\
   android_media_MtpServer_stop Session.created
     = Ok (tt, Orphan.stopped_early) /\
   steps Session.gid Session.database_of Orphan.stopped_early
         [native_setup 8 "/mnt/sdcard2"] Orphan.set_up_after) /\
  android_media_MtpServer_start Orphan.stopped_early = Fault NullPointer /\
  exists t', heap Orphan.set_up_after !! 0%nat = Some t' /\
             mDone t' = true /\ worker t' = NotStarted /\
             deleted t' = false.
Proof.
  assert (Hsteps : steps Session.gid Session.database_of
                         Orphan.stopped_early
                         [native_setup 8 "/mnt/sdcard2"]
                         Orphan.set_up_after).
  { eapply steps_cons; [apply steps_nil|]. eapply step_setup; reflexivity. }
  split; [repeat split; exact Hsteps|].
  destruct (stop_before_start_leaks Session.gid Session.database_of
              Session.created Orphan.stopped_early Orphan.set_up_after
              [native_setup 8 "/mnt/sdcard2"] 0%nat Session.handle
              eq_refl eq_refl eq_refl eq_refl eq_refl Hsteps)
    as (Hstart & t' & Hget & Hdone & Hw & Hlive & _).
  split; [exact Hstart|]. exists t'. repeat split; assumption.
Defined.
